(** * Motion control engine of the tape feeder: servo.py, peel.py and the
      hardware objects they drive (drives.py, encoder.py).

    The Python objects are embedded as records held in one store, the
    methods as programs of a state-and-exception monad over that store.
    Python ints are [Z]; Python floats are exact rationals [Q]; the clock
    (time.ticks_ms, time.ticks_us) and the encoder's hardware counter are
    inputs of the method that reads them.  Calls to dmesg.log have no effect
    on the control state and are left out. *)

From Stdlib Require Import ZArith QArith Qabs Qround List Bool Lia Lqa String.
Import ListNotations.

Local Open Scope Z_scope.

(** ** Python numerics *)

Definition Qltb (a b : Q) : bool := negb (Qle_bool b a).
Definition Qleb (a b : Q) : bool := Qle_bool a b.

(** max(a, b) and min(a, b): the first argument wins ties. *)
Definition pymax (a b : Q) : Q := if Qltb a b then b else a.
Definition pymin (a b : Q) : Q := if Qltb b a then b else a.

(** int(x) on a float: truncation toward zero. *)
Definition py_int (x : Q) : Z := Z.quot (Qnum x) (Zpos (Qden x)).

(** time.ticks_diff of MicroPython: the difference in the ring of ticks,
    taken in [-TICKS_PERIOD/2, TICKS_PERIOD/2). *)
Definition TICKS_PERIOD : Z := 2 ^ 30.
Definition ticks_diff (a b : Z) : Z :=
  (a - b + TICKS_PERIOD / 2) mod TICKS_PERIOD - TICKS_PERIOD / 2.

(** ** The objects *)

(** What the H-bridge is asked to do, in the order it is asked. *)
Inductive hw_call : Type :=
| CallEnable (state : bool)
| CallDriveSet (speed : Q)
| CallPeelSet (speed : Q).

(** drives.py, class HBridge: the attributes the motion code reads or writes. *)
Record HBridgeT : Type := mkHBridge {
  _enabled : bool;
  auto_brake : bool;
  drive_pwm_min : Q;
  peel_pwm_min : Q;
  enable_invert : bool;
  enable_pin : bool;  (* level last written to the enable pin *)
  peel1_pwm : Z;  (* pulse width percent of each PWM channel *)
  peel2_pwm : Z;
  drive1_pwm : Z;
  drive2_pwm : Z;
  calls : list hw_call  (* trace of the calls received, oldest first *)
}.

Definition set_enabled (v : bool) (o : HBridgeT) : HBridgeT :=
  mkHBridge v (auto_brake o) (drive_pwm_min o) (peel_pwm_min o)
    (enable_invert o) (enable_pin o) (peel1_pwm o) (peel2_pwm o)
    (drive1_pwm o) (drive2_pwm o) (calls o).

Definition set_auto_brake (v : bool) (o : HBridgeT) : HBridgeT :=
  mkHBridge (_enabled o) v (drive_pwm_min o) (peel_pwm_min o)
    (enable_invert o) (enable_pin o) (peel1_pwm o) (peel2_pwm o)
    (drive1_pwm o) (drive2_pwm o) (calls o).

Definition set_enable_pin (v : bool) (o : HBridgeT) : HBridgeT :=
  mkHBridge (_enabled o) (auto_brake o) (drive_pwm_min o) (peel_pwm_min o)
    (enable_invert o) v (peel1_pwm o) (peel2_pwm o) (drive1_pwm o)
    (drive2_pwm o) (calls o).

Definition set_peel1_pwm (v : Z) (o : HBridgeT) : HBridgeT :=
  mkHBridge (_enabled o) (auto_brake o) (drive_pwm_min o) (peel_pwm_min o)
    (enable_invert o) (enable_pin o) v (peel2_pwm o) (drive1_pwm o)
    (drive2_pwm o) (calls o).

Definition set_peel2_pwm (v : Z) (o : HBridgeT) : HBridgeT :=
  mkHBridge (_enabled o) (auto_brake o) (drive_pwm_min o) (peel_pwm_min o)
    (enable_invert o) (enable_pin o) (peel1_pwm o) v (drive1_pwm o)
    (drive2_pwm o) (calls o).

Definition set_drive1_pwm (v : Z) (o : HBridgeT) : HBridgeT :=
  mkHBridge (_enabled o) (auto_brake o) (drive_pwm_min o) (peel_pwm_min o)
    (enable_invert o) (enable_pin o) (peel1_pwm o) (peel2_pwm o) v
    (drive2_pwm o) (calls o).

Definition set_drive2_pwm (v : Z) (o : HBridgeT) : HBridgeT :=
  mkHBridge (_enabled o) (auto_brake o) (drive_pwm_min o) (peel_pwm_min o)
    (enable_invert o) (enable_pin o) (peel1_pwm o) (peel2_pwm o)
    (drive1_pwm o) v (calls o).

Definition set_calls (v : list hw_call) (o : HBridgeT) : HBridgeT :=
  mkHBridge (_enabled o) (auto_brake o) (drive_pwm_min o) (peel_pwm_min o)
    (enable_invert o) (enable_pin o) (peel1_pwm o) (peel2_pwm o)
    (drive1_pwm o) (drive2_pwm o) v.
(** peel.py: STATE_STOPPED, STATE_FORWARD, STATE_REVERSE = 0, 1, 2 *)
Inductive peel_state : Type := STATE_STOPPED | STATE_FORWARD | STATE_REVERSE.

Definition peel_state_eqb (a b : peel_state) : bool :=
  match a, b with
  | STATE_STOPPED, STATE_STOPPED => true
  | STATE_FORWARD, STATE_FORWARD => true
  | STATE_REVERSE, STATE_REVERSE => true
  | _, _ => false
  end.

(** peel.py, class PeelMotor (its [drives] attribute is the machine's shared H-bridge). *)
Record PeelMotorT : Type := mkPeelMotor {
  default_speed : Q;
  default_time_ms : Z;
  _current_state : peel_state;
  _target_run_time_ms : Z;
  _run_start_time_ms : Z;
  _current_actual_speed : Q
}.

Definition set_current_state (v : peel_state) (o : PeelMotorT) : PeelMotorT :=
  mkPeelMotor (default_speed o) (default_time_ms o) v (_target_run_time_ms o)
    (_run_start_time_ms o) (_current_actual_speed o).

Definition set_target_run_time_ms (v : Z) (o : PeelMotorT) : PeelMotorT :=
  mkPeelMotor (default_speed o) (default_time_ms o) (_current_state o) v
    (_run_start_time_ms o) (_current_actual_speed o).

Definition set_run_start_time_ms (v : Z) (o : PeelMotorT) : PeelMotorT :=
  mkPeelMotor (default_speed o) (default_time_ms o) (_current_state o)
    (_target_run_time_ms o) v (_current_actual_speed o).

Definition set_current_actual_speed (v : Q) (o : PeelMotorT) : PeelMotorT :=
  mkPeelMotor (default_speed o) (default_time_ms o) (_current_state o)
    (_target_run_time_ms o) (_run_start_time_ms o) v.
(** encoder.py, class Encoder. *)
Record EncoderT : Type := mkEncoder {
  ticks_per_revolution : Z;
  max_count : Z;
  invert : bool;
  _count : Z;
  _absolute_count : Z;
  _last_count : Z;
  _rpm : Q;
  _direction : Z;
  _delta : Z;
  _last_update_time_ms : Z
}.
(** servo.py, class Servo: its own attributes (the objects it references live in the machine). *)
Record ServoT : Type := mkServo {
  Kp : Q;
  Ki : Q;
  Kd : Q;
  pid_taper : Q;
  max_output : Q;
  min_output : Q;
  backlash_takeup : Z;
  tolerance : Z;
  ramp_ticks : Z;
  stable_updates : Z;
  ramp_taper_percent : Q;
  _integral : Q;
  _previous_error : Z;
  _last_time_us : Z;
  _setpoint : Z;
  _original_setpoint : Z;
  _target_reached : bool;
  _stable_count : Z;
  _initial_encoder_pos_at_move_start : Z;
  _initial_error_at_move_start : Z;
  _backlash_active : bool;
  _waiting_for_peel_idle_phase1 : bool;
  _current_movement_is_forward : bool;
  _derivative : Q;
  _derivative_alpha : Q;
  _dynamic_scale_threshold : Q;
  peel_motor_enabled_by_servo : bool;
  default_peel_speed : Q;
  default_peel_run_time_ms : Z
}.

Definition set_integral (v : Q) (o : ServoT) : ServoT :=
  mkServo (Kp o) (Ki o) (Kd o) (pid_taper o) (max_output o) (min_output o)
    (backlash_takeup o) (tolerance o) (ramp_ticks o) (stable_updates o)
    (ramp_taper_percent o) v (_previous_error o) (_last_time_us o)
    (_setpoint o) (_original_setpoint o) (_target_reached o) (_stable_count o)
    (_initial_encoder_pos_at_move_start o) (_initial_error_at_move_start o)
    (_backlash_active o) (_waiting_for_peel_idle_phase1 o)
    (_current_movement_is_forward o) (_derivative o) (_derivative_alpha o)
    (_dynamic_scale_threshold o) (peel_motor_enabled_by_servo o)
    (default_peel_speed o) (default_peel_run_time_ms o).

Definition set_previous_error (v : Z) (o : ServoT) : ServoT :=
  mkServo (Kp o) (Ki o) (Kd o) (pid_taper o) (max_output o) (min_output o)
    (backlash_takeup o) (tolerance o) (ramp_ticks o) (stable_updates o)
    (ramp_taper_percent o) (_integral o) v (_last_time_us o) (_setpoint o)
    (_original_setpoint o) (_target_reached o) (_stable_count o)
    (_initial_encoder_pos_at_move_start o) (_initial_error_at_move_start o)
    (_backlash_active o) (_waiting_for_peel_idle_phase1 o)
    (_current_movement_is_forward o) (_derivative o) (_derivative_alpha o)
    (_dynamic_scale_threshold o) (peel_motor_enabled_by_servo o)
    (default_peel_speed o) (default_peel_run_time_ms o).

Definition set_last_time_us (v : Z) (o : ServoT) : ServoT :=
  mkServo (Kp o) (Ki o) (Kd o) (pid_taper o) (max_output o) (min_output o)
    (backlash_takeup o) (tolerance o) (ramp_ticks o) (stable_updates o)
    (ramp_taper_percent o) (_integral o) (_previous_error o) v (_setpoint o)
    (_original_setpoint o) (_target_reached o) (_stable_count o)
    (_initial_encoder_pos_at_move_start o) (_initial_error_at_move_start o)
    (_backlash_active o) (_waiting_for_peel_idle_phase1 o)
    (_current_movement_is_forward o) (_derivative o) (_derivative_alpha o)
    (_dynamic_scale_threshold o) (peel_motor_enabled_by_servo o)
    (default_peel_speed o) (default_peel_run_time_ms o).

Definition set_setpoint (v : Z) (o : ServoT) : ServoT :=
  mkServo (Kp o) (Ki o) (Kd o) (pid_taper o) (max_output o) (min_output o)
    (backlash_takeup o) (tolerance o) (ramp_ticks o) (stable_updates o)
    (ramp_taper_percent o) (_integral o) (_previous_error o) (_last_time_us o)
    v (_original_setpoint o) (_target_reached o) (_stable_count o)
    (_initial_encoder_pos_at_move_start o) (_initial_error_at_move_start o)
    (_backlash_active o) (_waiting_for_peel_idle_phase1 o)
    (_current_movement_is_forward o) (_derivative o) (_derivative_alpha o)
    (_dynamic_scale_threshold o) (peel_motor_enabled_by_servo o)
    (default_peel_speed o) (default_peel_run_time_ms o).

Definition set_original_setpoint (v : Z) (o : ServoT) : ServoT :=
  mkServo (Kp o) (Ki o) (Kd o) (pid_taper o) (max_output o) (min_output o)
    (backlash_takeup o) (tolerance o) (ramp_ticks o) (stable_updates o)
    (ramp_taper_percent o) (_integral o) (_previous_error o) (_last_time_us o)
    (_setpoint o) v (_target_reached o) (_stable_count o)
    (_initial_encoder_pos_at_move_start o) (_initial_error_at_move_start o)
    (_backlash_active o) (_waiting_for_peel_idle_phase1 o)
    (_current_movement_is_forward o) (_derivative o) (_derivative_alpha o)
    (_dynamic_scale_threshold o) (peel_motor_enabled_by_servo o)
    (default_peel_speed o) (default_peel_run_time_ms o).

Definition set_target_reached (v : bool) (o : ServoT) : ServoT :=
  mkServo (Kp o) (Ki o) (Kd o) (pid_taper o) (max_output o) (min_output o)
    (backlash_takeup o) (tolerance o) (ramp_ticks o) (stable_updates o)
    (ramp_taper_percent o) (_integral o) (_previous_error o) (_last_time_us o)
    (_setpoint o) (_original_setpoint o) v (_stable_count o)
    (_initial_encoder_pos_at_move_start o) (_initial_error_at_move_start o)
    (_backlash_active o) (_waiting_for_peel_idle_phase1 o)
    (_current_movement_is_forward o) (_derivative o) (_derivative_alpha o)
    (_dynamic_scale_threshold o) (peel_motor_enabled_by_servo o)
    (default_peel_speed o) (default_peel_run_time_ms o).

Definition set_stable_count (v : Z) (o : ServoT) : ServoT :=
  mkServo (Kp o) (Ki o) (Kd o) (pid_taper o) (max_output o) (min_output o)
    (backlash_takeup o) (tolerance o) (ramp_ticks o) (stable_updates o)
    (ramp_taper_percent o) (_integral o) (_previous_error o) (_last_time_us o)
    (_setpoint o) (_original_setpoint o) (_target_reached o) v
    (_initial_encoder_pos_at_move_start o) (_initial_error_at_move_start o)
    (_backlash_active o) (_waiting_for_peel_idle_phase1 o)
    (_current_movement_is_forward o) (_derivative o) (_derivative_alpha o)
    (_dynamic_scale_threshold o) (peel_motor_enabled_by_servo o)
    (default_peel_speed o) (default_peel_run_time_ms o).

Definition set_initial_encoder_pos_at_move_start (v : Z) (o : ServoT) : ServoT :=
  mkServo (Kp o) (Ki o) (Kd o) (pid_taper o) (max_output o) (min_output o)
    (backlash_takeup o) (tolerance o) (ramp_ticks o) (stable_updates o)
    (ramp_taper_percent o) (_integral o) (_previous_error o) (_last_time_us o)
    (_setpoint o) (_original_setpoint o) (_target_reached o) (_stable_count o)
    v (_initial_error_at_move_start o) (_backlash_active o)
    (_waiting_for_peel_idle_phase1 o) (_current_movement_is_forward o)
    (_derivative o) (_derivative_alpha o) (_dynamic_scale_threshold o)
    (peel_motor_enabled_by_servo o) (default_peel_speed o)
    (default_peel_run_time_ms o).

Definition set_initial_error_at_move_start (v : Z) (o : ServoT) : ServoT :=
  mkServo (Kp o) (Ki o) (Kd o) (pid_taper o) (max_output o) (min_output o)
    (backlash_takeup o) (tolerance o) (ramp_ticks o) (stable_updates o)
    (ramp_taper_percent o) (_integral o) (_previous_error o) (_last_time_us o)
    (_setpoint o) (_original_setpoint o) (_target_reached o) (_stable_count o)
    (_initial_encoder_pos_at_move_start o) v (_backlash_active o)
    (_waiting_for_peel_idle_phase1 o) (_current_movement_is_forward o)
    (_derivative o) (_derivative_alpha o) (_dynamic_scale_threshold o)
    (peel_motor_enabled_by_servo o) (default_peel_speed o)
    (default_peel_run_time_ms o).

Definition set_backlash_active (v : bool) (o : ServoT) : ServoT :=
  mkServo (Kp o) (Ki o) (Kd o) (pid_taper o) (max_output o) (min_output o)
    (backlash_takeup o) (tolerance o) (ramp_ticks o) (stable_updates o)
    (ramp_taper_percent o) (_integral o) (_previous_error o) (_last_time_us o)
    (_setpoint o) (_original_setpoint o) (_target_reached o) (_stable_count o)
    (_initial_encoder_pos_at_move_start o) (_initial_error_at_move_start o) v
    (_waiting_for_peel_idle_phase1 o) (_current_movement_is_forward o)
    (_derivative o) (_derivative_alpha o) (_dynamic_scale_threshold o)
    (peel_motor_enabled_by_servo o) (default_peel_speed o)
    (default_peel_run_time_ms o).

Definition set_waiting_for_peel_idle_phase1 (v : bool) (o : ServoT) : ServoT :=
  mkServo (Kp o) (Ki o) (Kd o) (pid_taper o) (max_output o) (min_output o)
    (backlash_takeup o) (tolerance o) (ramp_ticks o) (stable_updates o)
    (ramp_taper_percent o) (_integral o) (_previous_error o) (_last_time_us o)
    (_setpoint o) (_original_setpoint o) (_target_reached o) (_stable_count o)
    (_initial_encoder_pos_at_move_start o) (_initial_error_at_move_start o)
    (_backlash_active o) v (_current_movement_is_forward o) (_derivative o)
    (_derivative_alpha o) (_dynamic_scale_threshold o)
    (peel_motor_enabled_by_servo o) (default_peel_speed o)
    (default_peel_run_time_ms o).

Definition set_current_movement_is_forward (v : bool) (o : ServoT) : ServoT :=
  mkServo (Kp o) (Ki o) (Kd o) (pid_taper o) (max_output o) (min_output o)
    (backlash_takeup o) (tolerance o) (ramp_ticks o) (stable_updates o)
    (ramp_taper_percent o) (_integral o) (_previous_error o) (_last_time_us o)
    (_setpoint o) (_original_setpoint o) (_target_reached o) (_stable_count o)
    (_initial_encoder_pos_at_move_start o) (_initial_error_at_move_start o)
    (_backlash_active o) (_waiting_for_peel_idle_phase1 o) v (_derivative o)
    (_derivative_alpha o) (_dynamic_scale_threshold o)
    (peel_motor_enabled_by_servo o) (default_peel_speed o)
    (default_peel_run_time_ms o).

Definition set_derivative (v : Q) (o : ServoT) : ServoT :=
  mkServo (Kp o) (Ki o) (Kd o) (pid_taper o) (max_output o) (min_output o)
    (backlash_takeup o) (tolerance o) (ramp_ticks o) (stable_updates o)
    (ramp_taper_percent o) (_integral o) (_previous_error o) (_last_time_us o)
    (_setpoint o) (_original_setpoint o) (_target_reached o) (_stable_count o)
    (_initial_encoder_pos_at_move_start o) (_initial_error_at_move_start o)
    (_backlash_active o) (_waiting_for_peel_idle_phase1 o)
    (_current_movement_is_forward o) v (_derivative_alpha o)
    (_dynamic_scale_threshold o) (peel_motor_enabled_by_servo o)
    (default_peel_speed o) (default_peel_run_time_ms o).

Definition set_peel_motor_enabled_by_servo (v : bool) (o : ServoT) : ServoT :=
  mkServo (Kp o) (Ki o) (Kd o) (pid_taper o) (max_output o) (min_output o)
    (backlash_takeup o) (tolerance o) (ramp_ticks o) (stable_updates o)
    (ramp_taper_percent o) (_integral o) (_previous_error o) (_last_time_us o)
    (_setpoint o) (_original_setpoint o) (_target_reached o) (_stable_count o)
    (_initial_encoder_pos_at_move_start o) (_initial_error_at_move_start o)
    (_backlash_active o) (_waiting_for_peel_idle_phase1 o)
    (_current_movement_is_forward o) (_derivative o) (_derivative_alpha o)
    (_dynamic_scale_threshold o) v (default_peel_speed o)
    (default_peel_run_time_ms o).
(** The object store: Servo.drives and PeelMotor.drives are the same object, so it is held once. *)
Record Machine : Type := mkMachine {
  drives : HBridgeT;  (* the one HBridge shared by Servo and PeelMotor *)
  encoder : EncoderT;
  peel_motor : PeelMotorT;
  self : ServoT
}.

Definition set_drives (v : HBridgeT) (o : Machine) : Machine :=
  mkMachine v (encoder o) (peel_motor o) (self o).

Definition set_encoder (v : EncoderT) (o : Machine) : Machine :=
  mkMachine (drives o) v (peel_motor o) (self o).

Definition set_peel_motor (v : PeelMotorT) (o : Machine) : Machine :=
  mkMachine (drives o) (encoder o) v (self o).

Definition set_self (v : ServoT) (o : Machine) : Machine :=
  mkMachine (drives o) (encoder o) (peel_motor o) v.
(** ** The monad: a method changes the store and returns or raises.
    The store is kept when an exception is raised, as in Python. *)

Inductive exn : Type := ValueError (msg : string).

Inductive outcome (A : Type) : Type :=
| Val (a : A)
| Exc (e : exn).
Arguments Val {A} a.
Arguments Exc {A} e.

Definition M (A : Type) : Type := Machine -> Machine * outcome A.

Definition ret {A} (a : A) : M A := fun m => (m, Val a).

Definition bind {A B} (c : M A) (k : A -> M B) : M B :=
  fun m => match c m with
           | (m', Val a) => k a m'
           | (m', Exc e) => (m', Exc e)
           end.

Definition raise {A} (e : exn) : M A := fun m => (m, Exc e).
Definition gets {A} (f : Machine -> A) : M A := fun m => (m, Val (f m)).
Definition modify (f : Machine -> Machine) : M unit := fun m => (f m, Val tt).

Declare Scope py_scope.
Delimit Scope py_scope with py.
Notation "x <- c ;; k" := (bind c (fun x => k))
  (at level 200, c at level 100, right associativity) : py_scope.
Notation "c ;; k" := (bind c (fun _ => k))
  (at level 200, right associativity) : py_scope.
Local Open Scope py_scope.

(** [if c: body] with no else. *)
Definition when (c : bool) (body : M unit) : M unit :=
  if c then body else ret tt.

(** A block of a method that may execute [return v]: [Some v] when it did,
    [None] when control falls through to the statements after it. *)
Definition falls_through {R} : M (option R) := ret None.
Definition returns {R} (v : R) : M (option R) := ret (Some v).
Definition then_ {R} (block : M (option R)) (rest : M R) : M R :=
  r <- block ;; match r with Some v => ret v | None => rest end.

(** Attribute updates on the objects of the store. *)
Definition on_drives (f : HBridgeT -> HBridgeT) : M unit :=
  modify (fun m => set_drives (f (drives m)) m).
Definition on_peel (f : PeelMotorT -> PeelMotorT) : M unit :=
  modify (fun m => set_peel_motor (f (peel_motor m)) m).
Definition on_self (f : ServoT -> ServoT) : M unit :=
  modify (fun m => set_self (f (self m)) m).

(** ** drives.py *)
Module HBridge.

(** def __init__(self, ..., enableinvert=False, ..., drive_pwm_min=65,
    peel_pwm_min=65, autobrake=False, ...): the PWM minimums are validated,
    all four channels are set to 0 percent and the bridge is disabled (the
    pins and the timer of the hardware are taken to set up without error).
    The trace starts with the constructor's own disable(). *)
Definition init (enableinvert : bool) (drive_pwm_min peel_pwm_min : Q)
    (autobrake : bool) : outcome HBridgeT :=
  if negb (Qleb 0 drive_pwm_min && Qleb drive_pwm_min 100
           && Qleb 0 peel_pwm_min && Qleb peel_pwm_min 100)
  then Exc (ValueError "PWM minimums must be 0-100")
  else
    let pin_state := if negb enableinvert then false else negb false in
    Val (mkHBridge false autobrake drive_pwm_min peel_pwm_min enableinvert
           pin_state 0 0 0 0 [CallEnable false]).

(** Every call made on the H-bridge is appended to its trace, before the
    method body runs. *)
Definition log_call (c : hw_call) : M unit :=
  on_drives (fun h => set_calls (calls h ++ [c]) h).

(** def enable(self, state=True) *)
Definition enable (state : bool) : M unit :=
  log_call (CallEnable state) ;;
  inv <- gets (fun m => enable_invert (drives m)) ;;
  let pin_state := if negb inv then state else negb state in
  on_drives (set_enable_pin pin_state) ;;
  on_drives (set_enabled state).

(** def disable(self) *)
Definition disable : M unit := enable false.

(** @property enabled *)
Definition enabled : M bool := gets (fun m => _enabled (drives m)).

(** _set_motor_pwm, lines 85-92: map relative speed to actual PWM range. *)
Definition actual_pwm (pwm_min speed : Q) : Z :=
  let actual_pwm :=
    if Qleb 100 pwm_min
    then (if Qltb 0 speed then 100 else 0)%Q
    else
      let usable_range := (100 - pwm_min)%Q in
      if Qltb 0 usable_range
      then (pwm_min + (speed / 100) * usable_range)%Q
      else 100%Q in
  py_int (pymax pwm_min (pymin 100 actual_pwm)).

(** def _set_motor_pwm(self, pwm1, pwm2, pwm_min, speed, forward):
    returns the duty cycles it writes to pwm1 and pwm2. *)
Definition _set_motor_pwm (pwm_min speed : Q) (forward : bool)
  : M (Z * Z) :=
  if negb (Qleb 0 speed && Qleb speed 100)
  then raise (ValueError "Speed must be 0-100")
  else
    let actual_pwm := actual_pwm pwm_min speed in
    if forward then ret (actual_pwm, 0) else ret (0, actual_pwm).

(** def peel_set(self, speed, brake=None, absolute_pwm=False), as the
    motion code calls it: brake and absolute_pwm keep their defaults. *)
Definition peel_set (speed : Q) : M unit :=
  log_call (CallPeelSet speed) ;;
  en <- enabled ;;
  if negb en then ret tt
  else if negb (Qleb (-100) speed && Qleb speed 100)
  then raise (ValueError "Speed must be -100 to 100")
  else
    brake <- gets (fun m => auto_brake (drives m)) ;;
    if Qeq_bool speed 0 then
      let duty := if brake then 100 else 0 in
      on_drives (fun h => set_peel2_pwm duty (set_peel1_pwm duty h))
    else
      pwm_min <- gets (fun m => peel_pwm_min (drives m)) ;;
      d <- _set_motor_pwm pwm_min (Qabs speed) (Qltb 0 speed) ;;
      on_drives (fun h => set_peel2_pwm (snd d) (set_peel1_pwm (fst d) h)).

(** def drive_set(self, speed, brake=None, absolute_pwm=False), likewise. *)
Definition drive_set (speed : Q) : M unit :=
  log_call (CallDriveSet speed) ;;
  en <- enabled ;;
  if negb en then ret tt
  else if negb (Qleb (-100) speed && Qleb speed 100)
  then raise (ValueError "Speed must be -100 to 100")
  else
    brake <- gets (fun m => auto_brake (drives m)) ;;
    if Qeq_bool speed 0 then
      let duty := if brake then 100 else 0 in
      on_drives (fun h => set_drive2_pwm duty (set_drive1_pwm duty h))
    else
      pwm_min <- gets (fun m => drive_pwm_min (drives m)) ;;
      d <- _set_motor_pwm pwm_min (Qabs speed) (Qltb 0 speed) ;;
      on_drives (fun h => set_drive2_pwm (snd d) (set_drive1_pwm (fst d) h)).

End HBridge.

(** ** encoder.py *)
Module Encoder.

(** def update(self): [now_ms] is what time.ticks_ms() returns and
    [counter] what the hardware counter reads.  [updated] is the object
    after the call. *)
Definition updated (now_ms counter : Z) (e : EncoderT) : EncoderT :=
  let current_time_ms := now_ms in
  let current_count_raw := counter in
  (* Calculate delta with wrap-around handling *)
  let delta := current_count_raw - _last_count e in
  let max_half := max_count e / 2 in
  let delta :=
    if max_half <? Z.abs delta
    then (if 0 <? delta then delta - (max_count e + 1)
          else delta + (max_count e + 1))
    else delta in
  let delta := if invert e then - delta else delta in
  let direction :=
    if 0 <? delta then 1 else if delta <? 0 then -1 else 0 in
  (* Calculate RPM *)
  let time_diff_ms := ticks_diff current_time_ms (_last_update_time_ms e) in
  let rpm :=
    if (0 <? ticks_per_revolution e) && (0 <? time_diff_ms) then
      let ticks_per_minute :=
        (inject_Z (Z.abs delta) * 60000 / inject_Z time_diff_ms)%Q in
      let calculated_rpm :=
        (ticks_per_minute / inject_Z (ticks_per_revolution e))%Q in
      if 0 <=? delta then calculated_rpm else (- calculated_rpm)%Q
    else 0%Q in
  mkEncoder (ticks_per_revolution e) (max_count e) (invert e)
    current_count_raw (_absolute_count e + delta) current_count_raw
    rpm direction delta current_time_ms.

Definition update (now_ms counter : Z) : M unit :=
  modify (fun m => set_encoder (updated now_ms counter (encoder m)) m).

(** @property absolute_count *)
Definition absolute_count : M Z := gets (fun m => _absolute_count (encoder m)).

(** def reset(self): [now_ms] is what time.ticks_ms() returns.  Every
    constructed encoder has its timer, so the body always runs; it also sets
    the hardware counter to 0.  [after_reset] is the object after the
    call. *)
Definition after_reset (now_ms : Z) (e : EncoderT) : EncoderT :=
  mkEncoder (ticks_per_revolution e) (max_count e) (invert e)
    0 0 0 0%Q 0 0 now_ms.

Definition reset (now_ms : Z) : M unit :=
  modify (fun m => set_encoder (after_reset now_ms (encoder m)) m).

End Encoder.

(** ** peel.py *)
Module PeelMotor.

(** def __init__(self, drives, default_speed=75, default_time_ms=1000, ...) *)
Definition init (default_speed : Q) (default_time_ms : Z) : PeelMotorT :=
  mkPeelMotor (Qabs default_speed) default_time_ms STATE_STOPPED 0 0 0.

(** def is_idle(self) *)
Definition is_idle : M bool :=
  gets (fun m => peel_state_eqb (_current_state (peel_motor m)) STATE_STOPPED).

(** def _set_state(self, new_state, speed_to_use=None) *)
Definition _set_state (new_state : peel_state) (speed_to_use : option Q)
  : M unit :=
  default <- gets (fun m => default_speed (peel_motor m)) ;;
  let speed_to_use : Q :=
    match new_state, speed_to_use with
    | STATE_STOPPED, _ => 0%Q
    | _, None => default
    | _, Some s => s
    end in
  cur <- gets (fun m => _current_state (peel_motor m)) ;;
  cur_speed <- gets (fun m => _current_actual_speed (peel_motor m)) ;;
  if peel_state_eqb cur new_state
     && negb (peel_state_eqb new_state STATE_STOPPED)
     && Qeq_bool cur_speed speed_to_use
  then ret tt
  else
    on_peel (set_current_state new_state) ;;
    on_peel (set_current_actual_speed
               (if negb (peel_state_eqb new_state STATE_STOPPED)
                then speed_to_use else 0%Q)) ;;
    speed <- gets (fun m => _current_actual_speed (peel_motor m)) ;;
    match new_state with
    | STATE_FORWARD => HBridge.peel_set speed
    | STATE_REVERSE => HBridge.peel_set (- speed)%Q
    | STATE_STOPPED =>
        HBridge.peel_set 0 ;;
        on_peel (fun p => set_run_start_time_ms 0
                            (set_target_run_time_ms 0
                               (set_current_actual_speed 0%Q p)))
    end.

(** state_map = {0: STATE_STOPPED, 1: STATE_FORWARD, -1: STATE_REVERSE} *)
Definition state_map (direction_int : Z) : option peel_state :=
  if direction_int =? 0 then Some STATE_STOPPED
  else if direction_int =? 1 then Some STATE_FORWARD
  else if direction_int =? -1 then Some STATE_REVERSE
  else None.

(** def run(self, direction_int, time_ms=None, speed=None): [now_ms] is
    what time.ticks_ms() returns when the timer is reset. *)
Definition run (direction_int : Z) (time_ms : option Z) (speed : option Q)
    (now_ms : Z) : M unit :=
  match state_map direction_int with
  | None => ret tt
  | Some direction_state =>
    default_time <- gets (fun m => default_time_ms (peel_motor m)) ;;
    let run_time_ms :=
      match time_ms with None => default_time | Some t => t end in
    if run_time_ms <? 0 then ret tt
    else
      default <- gets (fun m => default_speed (peel_motor m)) ;;
      let actual_speed :=
        match speed with
        | Some s => pymin (Qabs s) 100
        | None => default
        end in
      if peel_state_eqb direction_state STATE_STOPPED
         || ((run_time_ms =? 0)
             && negb (peel_state_eqb direction_state STATE_STOPPED))
      then _set_state STATE_STOPPED (Some 0%Q)
      else
        cur <- gets (fun m => _current_state (peel_motor m)) ;;
        cur_speed <- gets (fun m => _current_actual_speed (peel_motor m)) ;;
        let state_changed :=
          negb (peel_state_eqb cur direction_state)
          || peel_state_eqb cur STATE_STOPPED
          || negb (Qeq_bool cur_speed actual_speed) in
        when state_changed (_set_state direction_state (Some actual_speed)) ;;
        on_peel (set_run_start_time_ms now_ms) ;;
        on_peel (set_target_run_time_ms run_time_ms)
  end.

(** def update(self): [now_ms] is what time.ticks_ms() returns. *)
Definition update (now_ms : Z) : M unit :=
  cur <- gets (fun m => _current_state (peel_motor m)) ;;
  target <- gets (fun m => _target_run_time_ms (peel_motor m)) ;;
  if peel_state_eqb cur STATE_STOPPED || (target <=? 0) then ret tt
  else
    start <- gets (fun m => _run_start_time_ms (peel_motor m)) ;;
    let elapsed := ticks_diff now_ms start in
    if target <=? elapsed then _set_state STATE_STOPPED (Some 0%Q)
    else ret tt.

(** def get_state(self) *)
Definition get_state : M Z :=
  gets (fun m => match _current_state (peel_motor m) with
                 | STATE_FORWARD => 1
                 | STATE_REVERSE => -1
                 | STATE_STOPPED => 0
                 end).

End PeelMotor.

(** ** servo.py *)

(** The keyword arguments of Servo.__init__. *)
Record ServoArgs : Type := mkServoArgs {
  arg_Kp : Q; arg_Ki : Q; arg_Kd : Q; arg_pid_taper : Q;
  arg_max_output : Q; arg_min_output : Q; arg_backlash_takeup : Z;
  arg_tolerance : Z; arg_ramp_ticks : Z; arg_stable_updates : Z;
  arg_ramp_taper_percent : Q; arg_brake : bool;
  arg_peel_enable : bool; arg_peel_speed : Q; arg_peel_time_ms : Z;
  arg_derivative_alpha : Q; arg_dynamic_scale_threshold : Q
}.

(** Their default values. *)
Definition default_args : ServoArgs :=
  mkServoArgs (5 # 100) (1 # 1000) (5 # 1000) 30
    80 5 200
    10 200 3
    30 true
    false 75 1000
    (1 # 10) 100.

(** What set_target reads from outside: the clock and the counter of
    encoder.update(), the clock of peel_motor.run() and time.ticks_us(). *)
Record SetTargetIO : Type := mkSetTargetIO {
  st_enc_ms : Z;
  st_counter : Z;
  st_run_ms : Z;
  st_ticks_us : Z
}.

(** What update reads from outside, one field per place that reads. *)
Record TickIO : Type := mkTickIO {
  peel_update_ms : Z;   (* peel_motor.update(), line 159 *)
  enc_ms : Z;           (* encoder.update(), line 169 *)
  counter : Z;
  run_ms_phase1 : Z;    (* peel_motor.run(-1, ...), line 180 *)
  run_ms_phase2 : Z;    (* peel_motor.run(1, ...), line 209 *)
  us_phase2 : Z;        (* time.ticks_us(), line 202 *)
  us_dt : Z;            (* time.ticks_us(), line 286 *)
  us_end : Z            (* time.ticks_us(), line 303 *)
}.

Module Servo.

(** def __init__(self, drives, encoder, dmesg, Kp=0.05, ...) *)
Definition init (d : HBridgeT) (e : EncoderT) (a : ServoArgs) : Machine :=
  mkMachine
    (set_auto_brake (arg_brake a) d)
    e
    (PeelMotor.init (arg_peel_speed a) (arg_peel_time_ms a))
    (mkServo
       (arg_Kp a) (arg_Ki a) (arg_Kd a) (arg_pid_taper a)
       (Qabs (arg_max_output a)) (Qabs (arg_min_output a))
       (Z.abs (arg_backlash_takeup a)) (Z.abs (arg_tolerance a))
       (Z.abs (arg_ramp_ticks a)) (arg_stable_updates a)
       (pymax 0 (pymin 100 (arg_ramp_taper_percent a)))
       0%Q 0 0
       0 0
       true 0
       0 0
       false false true
       0%Q (arg_derivative_alpha a) (arg_dynamic_scale_threshold a)
       (arg_peel_enable a) (arg_peel_speed a) (arg_peel_time_ms a)).

(** self.peel_motor.run(direction, self.default_peel_run_time_ms,
    self.default_peel_speed) *)
Definition peel_run (direction : Z) (now_ms : Z) : M unit :=
  s <- gets self ;;
  PeelMotor.run direction (Some (default_peel_run_time_ms s))
    (Some (default_peel_speed s)) now_ms.

(** self.peel_motor.run(0); a stop does not read the clock. *)
Definition peel_stop : M unit := PeelMotor.run 0 None None 0.

(** def enable(self, state=True) *)
Definition enable (state : bool) : M unit :=
  if state then HBridge.enable true
  else
    HBridge.drive_set 0 ;;
    peel <- gets (fun m => peel_motor_enabled_by_servo (self m)) ;;
    when peel peel_stop ;;
    on_self (set_target_reached true) ;;
    on_self (fun s => set_backlash_active false
                        (set_waiting_for_peel_idle_phase1 false s)) ;;
    HBridge.enable false.

(** def disable(self) *)
Definition disable : M unit := enable false.

(** @property enabled *)
Definition enabled : M bool := HBridge.enabled.

(** def set_target(self, target_position) *)
Definition set_target (target_position : Z) (io : SetTargetIO) : M unit :=
  enable true ;;
  Encoder.update (st_enc_ms io) (st_counter io) ;;
  current_pos <- Encoder.absolute_count ;;
  on_self (set_original_setpoint target_position) ;;
  on_self (fun s => set_target_reached false
                      (set_backlash_active false
                         (set_waiting_for_peel_idle_phase1 false s))) ;;
  let is_moving_backwards := target_position <? current_pos in
  peel <- gets (fun m => peel_motor_enabled_by_servo (self m)) ;;
  (if is_moving_backwards then
     on_self (set_backlash_active true) ;;
     on_self (fun s =>
       let overshoot := ramp_ticks s + backlash_takeup s in
       set_setpoint (_original_setpoint s - overshoot) s) ;;
     on_self (set_current_movement_is_forward false) ;;
     when peel
       (idle <- PeelMotor.is_idle ;;
        if negb idle
        then on_self (set_waiting_for_peel_idle_phase1 true)
        else peel_run (-1) (st_run_ms io))
   else
     on_self (fun s => set_setpoint (_original_setpoint s) s) ;;
     setpoint <- gets (fun m => _setpoint (self m)) ;;
     if negb (setpoint =? current_pos) then
       on_self (set_current_movement_is_forward (current_pos <? setpoint)) ;;
       when peel (peel_run 1 (st_run_ms io))
     else
       on_self (set_current_movement_is_forward true) ;;
       when peel peel_stop) ;;
  (* Reset control state *)
  on_self (set_integral 0%Q) ;;
  on_self (fun s => set_previous_error (_setpoint s - current_pos) s) ;;
  on_self (set_last_time_us (st_ticks_us io)) ;;
  on_self (set_stable_count 0) ;;
  on_self (set_initial_encoder_pos_at_move_start current_pos) ;;
  on_self (fun s => set_initial_error_at_move_start
                      (Z.abs (_setpoint s - current_pos)) s) ;;
  (* Check if already within tolerance *)
  s <- gets self ;;
  if _initial_error_at_move_start s <=? tolerance s then
    if _backlash_active s && negb (_current_movement_is_forward s)
    then ret tt
    else
      on_self (set_target_reached true) ;;
      HBridge.drive_set 0 ;;
      when ((_setpoint s =? current_pos) && peel) peel_stop ;;
      when (_backlash_active s) (on_self (set_backlash_active false))
  else ret tt.

(** update, lines 172-180: waiting for the peel motor before Phase 1. *)
Definition wait_before_phase1 (io : TickIO) : M (option bool) :=
  s <- gets self ;;
  if _backlash_active s && negb (_current_movement_is_forward s)
     && _waiting_for_peel_idle_phase1 s
  then
    idle <- PeelMotor.is_idle ;;
    if peel_motor_enabled_by_servo s && negb idle then returns true
    else
      on_self (set_waiting_for_peel_idle_phase1 false) ;;
      when (peel_motor_enabled_by_servo s)
        (peel_run (-1) (run_ms_phase1 io)) ;;
      falls_through
  else falls_through.

(** update, lines 182-216: Phase 1 completion check. *)
Definition phase1_completion (io : TickIO) (current_position : Z)
  : M (option bool) :=
  s <- gets self ;;
  if _backlash_active s && negb (_current_movement_is_forward s) then
    if current_position <=? _setpoint s then
      when (negb (_waiting_for_peel_idle_phase1 s))
        (HBridge.drive_set 0 ;;
         on_self (set_waiting_for_peel_idle_phase1 true)) ;;
      idle <- PeelMotor.is_idle ;;
      if peel_motor_enabled_by_servo s && negb idle then returns true
      else
        on_self (set_waiting_for_peel_idle_phase1 false) ;;
        on_self (fun s => set_setpoint (_original_setpoint s) s) ;;
        on_self (set_current_movement_is_forward true) ;;
        (* Reset for Phase 2 *)
        on_self (set_target_reached false) ;;
        on_self (set_integral 0%Q) ;;
        on_self (fun s =>
          set_previous_error (_setpoint s - current_position) s) ;;
        on_self (set_last_time_us (us_phase2 io)) ;;
        on_self (set_stable_count 0) ;;
        on_self (set_initial_encoder_pos_at_move_start current_position) ;;
        on_self (fun s => set_initial_error_at_move_start
                            (Z.abs (_setpoint s - current_position)) s) ;;
        when (peel_motor_enabled_by_servo s)
          (peel_run 1 (run_ms_phase2 io)) ;;
        s <- gets self ;;
        if _initial_error_at_move_start s <=? tolerance s then
          on_self (set_target_reached true) ;;
          HBridge.drive_set 0 ;;
          on_self (set_backlash_active false) ;;
          returns false
        else falls_through
    else falls_through
  else falls_through.

(** update, lines 225-234: overshoot detection (forward movements only). *)
Definition overshoot_detection (current_position : Z) : M (option bool) :=
  s <- gets self ;;
  let error := _setpoint s - current_position in
  let distance_to_setpoint := Z.abs error in
  if _current_movement_is_forward s
     && (_setpoint s <? current_position)
     && (tolerance s <? distance_to_setpoint)
  then
    HBridge.drive_set 0 ;;
    on_self (set_target_reached true) ;;
    when (_backlash_active s) (on_self (set_backlash_active false)) ;;
    returns false
  else falls_through.

(** update, lines 236-251: target reached check. *)
Definition target_reached_check (current_position : Z) : M (option bool) :=
  s <- gets self ;;
  let error := _setpoint s - current_position in
  let distance_to_setpoint := Z.abs error in
  if distance_to_setpoint <=? tolerance s then
    if negb (_backlash_active s && negb (_current_movement_is_forward s))
    then
      on_self (fun s => set_stable_count (_stable_count s + 1) s) ;;
      s <- gets self ;;
      if stable_updates s <=? _stable_count s then
        on_self (set_target_reached true) ;;
        HBridge.drive_set 0 ;;
        when (_backlash_active s) (on_self (set_backlash_active false)) ;;
        returns false
      else
        HBridge.drive_set 0 ;;
        falls_through
    else falls_through
  else
    on_self (set_stable_count 0) ;;
    falls_through.

(** update, lines 256-263: Phase 1 reverse control. *)
Definition reverse_output (s : ServoT) (distance_to_setpoint : Z) : Q :=
  let reverse_min_speed := (max_output s * (6 # 10))%Q in
  let total_distance := _initial_error_at_move_start s in
  let progress :=
    if 0 <? total_distance
    then (inject_Z distance_to_setpoint / inject_Z total_distance)%Q
    else 0%Q in
  let progress := pymax 0 (pymin 1 progress) in
  let output :=
    (- (min_output s + (reverse_min_speed - min_output s) * progress))%Q in
  pymax (- max_output s)%Q (pymin output (- min_output s)%Q).

(** update, lines 266-279: ramp phase. *)
Definition ramp_output (s : ServoT) (distance_to_setpoint : Z) : Q :=
  let tapered_speed := ((ramp_taper_percent s / 100) * max_output s)%Q in
  let min_ramp_speed :=
    pymin (pymax tapered_speed (min_output s)) (max_output s) in
  let ramp_span := _initial_error_at_move_start s - ramp_ticks s in
  let output :=
    if 0 <? ramp_span then
      let progress :=
        (inject_Z (distance_to_setpoint - ramp_ticks s)
         / inject_Z ramp_span)%Q in
      let progress := pymax 0 (pymin 1 progress) in
      let speed_range := (max_output s - min_ramp_speed)%Q in
      (min_ramp_speed + speed_range * progress)%Q
    else min_ramp_speed in
  pymin output (max_output s).

(** update, lines 285-300: the PID step; it updates the integral and the
    filtered derivative and gives the output. *)
Definition pid_output (io : TickIO) (error : Z) : M Q :=
  s <- gets self ;;
  let P := (Kp s * inject_Z error)%Q in
  let dt :=
    if 0 <? _last_time_us s
    then (inject_Z (us_dt io - _last_time_us s) / 1000000)%Q
    else (2 # 100)%Q in
  on_self (fun s => set_integral (_integral s + inject_Z error * dt)%Q s) ;;
  let max_integral :=
    if negb (Qeq_bool (Ki s) 0) then (max_output s / Ki s)%Q
    else max_output s in
  on_self (fun s =>
    set_integral
      (pymax (pymin (_integral s) max_integral) (- max_integral)%Q) s) ;;
  integral <- gets (fun m => _integral (self m)) ;;
  let I := (Ki s * integral)%Q in
  D <- (if (0 <? _last_time_us s) && Qltb 0 dt then
          let raw_derivative :=
            (inject_Z (error - _previous_error s) / dt)%Q in
          on_self (fun s =>
            set_derivative
              (_derivative_alpha s * raw_derivative
               + (1 - _derivative_alpha s) * _derivative s)%Q s) ;;
          derivative <- gets (fun m => _derivative (self m)) ;;
          ret (Kd s * derivative)%Q
        else ret 0%Q) ;;
  let output := (P + I + D)%Q in
  ret (pymin (pymax output (min_output s)) (max_output s)).

(** update, lines 253-300: control output calculation. *)
Definition control_output (io : TickIO) (current_position : Z) : M Q :=
  s <- gets self ;;
  let error := _setpoint s - current_position in
  let distance_to_setpoint := Z.abs error in
  if _backlash_active s && negb (_current_movement_is_forward s) then
    ret (reverse_output s distance_to_setpoint)
  else if ramp_ticks s <? distance_to_setpoint then
    ret (ramp_output s distance_to_setpoint)
  else if Z.abs error <=? tolerance s then
    HBridge.drive_set 0 ;;
    ret 0%Q
  else pid_output io error.

(** update, lines 221-307: movement control logic. *)
Definition movement_control (io : TickIO) (current_position : Z) : M bool :=
  then_ (overshoot_detection current_position) (
  then_ (target_reached_check current_position) (
    output <- control_output io current_position ;;
    on_self (fun s =>
      set_previous_error (_setpoint s - current_position) s) ;;
    on_self (set_last_time_us (us_end io)) ;;
    s <- gets self ;;
    let output := pymax (pymin output (max_output s)) (- max_output s)%Q in
    HBridge.drive_set output ;;
    ret true)).

(** def update(self) *)
Definition update (io : TickIO) : M bool :=
  peel <- gets (fun m => peel_motor_enabled_by_servo (self m)) ;;
  when peel (PeelMotor.update (peel_update_ms io)) ;;
  en <- enabled ;;
  if negb en then
    idle <- PeelMotor.is_idle ;;
    when (peel && negb idle) peel_stop ;;
    ret false
  else
    s <- gets self ;;
    if _target_reached s && negb (_waiting_for_peel_idle_phase1 s)
    then ret false
    else
      Encoder.update (enc_ms io) (counter io) ;;
      current_position <- Encoder.absolute_count ;;
      then_ (wait_before_phase1 io) (
      then_ (phase1_completion io current_position) (
        s <- gets self ;;
        if _waiting_for_peel_idle_phase1 s then ret true
        else movement_control io current_position)).

(** def stop(self) *)
Definition stop : M unit :=
  HBridge.drive_set 0 ;;
  peel <- gets (fun m => peel_motor_enabled_by_servo (self m)) ;;
  when peel peel_stop ;;
  on_self (set_target_reached true) ;;
  on_self (fun s => set_backlash_active false
                      (set_waiting_for_peel_idle_phase1 false s)).

(** @property is_target_reached *)
Definition is_target_reached : M bool :=
  gets (fun m => _target_reached (self m)
                 && negb (_waiting_for_peel_idle_phase1 (self m))).

(** def get_current_position(self) *)
Definition get_current_position (now_ms counter : Z) : M Z :=
  Encoder.update now_ms counter ;;
  Encoder.absolute_count.

(** def peel_enable(self, enabled) *)
Definition peel_enable (enabled : bool) : M unit :=
  on_self (set_peel_motor_enabled_by_servo enabled) ;;
  when (negb enabled) peel_stop.

End Servo.

(** * Vocabulary of the statements *)

(** ** The commands sent to the drive motor *)

Definition drive_cmds (l : list hw_call) : list Q :=
  flat_map (fun c => match c with CallDriveSet v => [v] | _ => [] end) l.

Definition is_peel_call (c : hw_call) : bool :=
  match c with CallPeelSet _ => true | _ => false end.

(** [m'] is [m] after commands to the peel channel only. *)
Record peel_frame (m m' : Machine) : Prop := mkPeelFrame {
  pf_self : self m' = self m;
  pf_encoder : encoder m' = encoder m;
  pf_enabled : _enabled (drives m') = _enabled (drives m);
  pf_drive1 : drive1_pwm (drives m') = drive1_pwm (drives m);
  pf_drive2 : drive2_pwm (drives m') = drive2_pwm (drives m);
  pf_calls : exists l, calls (drives m') = calls (drives m) ++ l
                       /\ forallb is_peel_call l = true;
  pf_defaults : default_speed (peel_motor m') = default_speed (peel_motor m)
                /\ default_time_ms (peel_motor m')
                   = default_time_ms (peel_motor m)
}.

(** The run time [run] works with. *)
Definition run_time (time_ms : option Z) (m : Machine) : Z :=
  match time_ms with
  | Some t => t
  | None => default_time_ms (peel_motor m)
  end.

(** The position the servo works with in a tick: the encoder's absolute
    count after encoder.update(). *)
Definition position_read (io : TickIO) (m : Machine) : Z :=
  _absolute_count (Encoder.updated (enc_ms io) (counter io) (encoder m)).

(** The forward leg: enabled, moving forward, target not reached and not
    waiting for the peel motor. *)
Definition forward_leg (m : Machine) : Prop :=
  _enabled (drives m) = true
  /\ _target_reached (self m) = false
  /\ _waiting_for_peel_idle_phase1 (self m) = false
  /\ _current_movement_is_forward (self m) = true.

(** The commands sent to the drive motor so far. *)
Definition drive_log (m : Machine) : list Q := drive_cmds (calls (drives m)).

(** A sequence of update() calls: the store after them and what they
    returned. *)
Fixpoint ticks (ios : list TickIO) (m : Machine)
  : Machine * list (outcome bool) :=
  match ios with
  | [] => (m, [])
  | io :: rest =>
      let (m1, r) := Servo.update io m in
      let (m2, rs) := ticks rest m1 in
      (m2, r :: rs)
  end.

Arguments Encoder.updated : simpl never.

(** ** Sample stores *)

(** An H-bridge as HBridge.__init__ leaves it (disabled, all PWM at 0) and
    an encoder whose counter reads [c]. *)
Definition hbridge0 : HBridgeT :=
  mkHBridge false false 65 65 false false 0 0 0 0 [].

Definition encoder_at (c : Z) : EncoderT :=
  mkEncoder 1000 65535 false c c c 0 0 0 0.

(** A tick at [t] ms in which the counter reads [c]. *)
Definition tick_at (t c : Z) : TickIO :=
  mkTickIO t t c t t (t * 1000) (t * 1000) (t * 1000).

(** set_target() at [t] ms with the counter at [c]. *)
Definition set_target_at (t c : Z) : SetTargetIO :=
  mkSetTargetIO t c t (t * 1000).

(** The peel motor running forward at 75 for 1000 ms from time 0, on an
    enabled H-bridge. *)
Definition peel_running : Machine :=
  fst (PeelMotor.run 1 (Some 1000) (Some 75%Q) 0
         (fst (HBridge.enable true
                 (Servo.init hbridge0 (encoder_at 0) default_args)))).

(** The speed peel_set() is given in state [ds] at speed [v]. *)
Definition signed_speed (ds : peel_state) (v : Q) : Q :=
  match ds with
  | STATE_FORWARD => v
  | STATE_REVERSE => (- v)%Q
  | STATE_STOPPED => 0%Q
  end.

(** What Servo.__init__ guarantees of the limits it stores. *)
Definition configured (s : ServoT) : Prop :=
  (0 <= max_output s)%Q /\ (0 <= min_output s)%Q
  /\ 0 <= backlash_takeup s /\ 0 <= tolerance s /\ 0 <= ramp_ticks s
  /\ (0 <= ramp_taper_percent s <= 100)%Q.

(** Keyword arguments that the specification calls invalid: a negative
    tolerance, max_output below min_output, a taper above 100 percent. *)
Definition invalid_args : ServoArgs :=
  mkServoArgs (5 # 100) (1 # 1000) (5 # 1000) 30
    5 80 200
    (-10) 200 3
    150 true
    false 75 1000
    (1 # 10) 100.

(** update, line 288: the bound the integral is clamped to. *)
Definition max_integral (s : ServoT) : Q :=
  if negb (Qeq_bool (Ki s) 0) then (max_output s / Ki s)%Q else max_output s.

(** The anti-windup bound, on the magnitude of the clamp. *)
Definition integral_bounded (s : ServoT) : Prop :=
  (Qabs (_integral s) <= Qabs (max_integral s))%Q.

(** What the calls keep: the gains and limits, and the bound on the
    integral. *)
Definition windup_inv (s0 s : ServoT) : Prop :=
  Ki s = Ki s0 /\ max_output s = max_output s0 /\ integral_bounded s.

(** update, lines 286-289: the time step and the integral after the step. *)
Definition pid_dt (io : TickIO) (s : ServoT) : Q :=
  if 0 <? _last_time_us s
  then (inject_Z (us_dt io - _last_time_us s) / 1000000)%Q
  else (2 # 100)%Q.

Definition pid_integral (io : TickIO) (error : Z) (s : ServoT) : Q :=
  pymax (pymin (_integral s + inject_Z error * pid_dt io s)%Q (max_integral s))
    (- max_integral s)%Q.

(** The default configuration with ramp_ticks=0, so that the tolerance (10)
    is wider than the ramp distance. *)
Definition zero_ramp_args : ServoArgs :=
  mkServoArgs (5 # 100) (1 # 1000) (5 # 1000) 30
    80 5 200
    10 0 3
    30 true
    false 75 1000
    (1 # 10) 100.

(** A forward move to 100 from 0 under configuration [a], ready for its
    first tick. *)
Definition forward_move (a : ServoArgs) : Machine :=
  fst (Servo.set_target 100 (set_target_at 10 0)
         (Servo.init hbridge0 (encoder_at 0) a)).



(** The default configuration with a negative integral gain. *)
Definition negative_ki_args : ServoArgs :=
  mkServoArgs (5 # 100) (- (1 # 1000)) (5 # 1000) 30
    80 5 200
    10 200 3
    30 true
    false 75 1000
    (1 # 10) 100.

(** The calls a client makes on a Servo, and a sequence of them. *)
Inductive servo_call : Type :=
| DoSetTarget (target_position : Z) (io : SetTargetIO)
| DoUpdate (io : TickIO)
| DoStop
| DoEnable (state : bool).

Definition do_call (c : servo_call) (m : Machine) : Machine :=
  match c with
  | DoSetTarget t io => fst (Servo.set_target t io m)
  | DoUpdate io => fst (Servo.update io m)
  | DoStop => fst (Servo.stop m)
  | DoEnable b => fst (Servo.enable b m)
  end.

Definition do_calls (cs : list servo_call) (m : Machine) : Machine :=
  fold_left (fun m c => do_call c m) cs m.

(** The configuration of Scenario B (backlash_takeup=200, ramp_ticks=250)
    with the peel motor in use. *)
Definition scenario_b_args : ServoArgs :=
  mkServoArgs (5 # 100) (1 # 1000) (5 # 1000) 30
    80 5 200
    10 250 3
    30 true
    true 75 1000
    (1 # 10) 100.

(** The reverse leg (Phase 1) and its wait state. *)
Definition reverse_leg (m : Machine) : Prop :=
  _enabled (drives m) = true
  /\ _target_reached (self m) = false
  /\ _backlash_active (self m) = true
  /\ _current_movement_is_forward (self m) = false.

(** Phase 1 is over and the controller waits with the peel motor in use:
    the state in which update() is to start the forward leg once the peel
    motor is idle. *)
Definition waiting_after_reverse_leg (sp : Z) (m : Machine) : Prop :=
  reverse_leg m
  /\ _waiting_for_peel_idle_phase1 (self m) = true
  /\ peel_motor_enabled_by_servo (self m) = true
  /\ 0 < default_peel_run_time_ms (self m)
  /\ _setpoint (self m) = sp.

(** Every tick of [ios] reads a position at or below [sp]. *)
Fixpoint positions_below (sp : Z) (ios : list TickIO) (e : EncoderT) : Prop :=
  match ios with
  | [] => True
  | io :: rest =>
      let e' := Encoder.updated (enc_ms io) (counter io) e in
      _absolute_count e' <= sp /\ positions_below sp rest e'
  end.

(** ** The encoder and the true position *)

(** What the hardware counter reads at true position [p]. *)
Definition counter_at (e : EncoderT) (p : Z) : Z := p mod (max_count e + 1).

(** encoder.update() once per reading (clock, counter), in order. *)
Definition encoder_feed (rs : list (Z * Z)) (e : EncoderT) : EncoderT :=
  fold_left (fun e r => Encoder.updated (fst r) (snd r) e) rs e.

(** From position [p] on, each position of [ps] is within [h] of the one
    before it. *)
Fixpoint small_steps (h p : Z) (ps : list Z) : Prop :=
  match ps with
  | [] => True
  | q :: rest => Z.abs (q - p) <= h /\ small_steps h q rest
  end.

(** ** The H-bridge *)

(** What HBridge.__init__ validates. *)
Definition pwm_min_ok (h : HBridgeT) : Prop :=
  (0 <= drive_pwm_min h <= 100)%Q /\ (0 <= peel_pwm_min h <= 100)%Q.

(** The four duty cycles. *)
Definition duties (h : HBridgeT) : Z * Z * Z * Z :=
  (peel1_pwm h, peel2_pwm h, drive1_pwm h, drive2_pwm h).

(** ** The peel motor as a client drives it *)

Inductive peel_call : Type :=
| PeelRun (direction_int : Z) (time_ms : option Z) (speed : option Q)
    (now_ms : Z)
| PeelUpdate (now_ms : Z).

Definition peel_call_cmd (c : peel_call) : M unit :=
  match c with
  | PeelRun d t s now => PeelMotor.run d t s now
  | PeelUpdate now => PeelMotor.update now
  end.

(** The calls one after the other; an exception ends the sequence. *)
Fixpoint peel_script (cs : list peel_call) : M unit :=
  match cs with
  | [] => ret tt
  | c :: rest => (peel_call_cmd c ;; peel_script rest)%py
  end.

(** The peel motor as _set_state(STATE_STOPPED) leaves it. *)
Definition stopped_motor (p : PeelMotorT) : PeelMotorT :=
  mkPeelMotor (default_speed p) (default_time_ms p) STATE_STOPPED 0 0 0.

(** Stopped means speed and timer at zero; running means a timer set and a
    speed within 0..100. *)
Definition peel_inv (p : PeelMotorT) : Prop :=
  match _current_state p with
  | STATE_STOPPED =>
      _current_actual_speed p = 0%Q /\ _target_run_time_ms p = 0
      /\ _run_start_time_ms p = 0
  | _ =>
      0 < _target_run_time_ms p
      /\ (0 <= _current_actual_speed p <= 100)%Q
  end.

(** The speeds given to peel_set(), oldest first. *)
Definition peel_cmds (l : list hw_call) : list Q :=
  flat_map (fun c => match c with CallPeelSet v => [v] | _ => [] end) l.

(** The last command sent to the peel channel is the one of the state the
    sequencer is in. *)
Definition peel_in_sync (m : Machine) : Prop :=
  last (peel_cmds (calls (drives m))) 0%Q
  = signed_speed (_current_state (peel_motor m))
      (_current_actual_speed (peel_motor m)).

(** The speed [run] works with. *)
Definition run_speed (speed : option Q) (m : Machine) : Q :=
  match speed with
  | Some s => pymin (Qabs s) 100
  | None => default_speed (peel_motor m)
  end.

(** ** The phases of a move *)

(** The three flags of the Servo encode one phase: idle, the forward leg,
    or the reverse leg (moving or waiting for the peel motor). *)
Definition phase_ok (s : ServoT) : Prop :=
  (_target_reached s = true /\ _waiting_for_peel_idle_phase1 s = false
   /\ _backlash_active s = false)
  \/ (_target_reached s = false /\ _waiting_for_peel_idle_phase1 s = false
      /\ _current_movement_is_forward s = true)
  \/ (_target_reached s = false /\ _backlash_active s = true
      /\ _current_movement_is_forward s = false).

(** While a move is in progress the setpoint is the requested target on
    the forward leg and, on the reverse leg, the point ramp_ticks +
    backlash_takeup below it. *)
Definition heading_ok (s : ServoT) : Prop :=
  _target_reached s = false ->
  _setpoint s
  = if _current_movement_is_forward s then _original_setpoint s
    else _original_setpoint s - (ramp_ticks s + backlash_takeup s).

(** The limits and gains of a Servo, which set_target(), update(), stop()
    and enable() leave as the constructor stored them. *)
Definition config_of (s : ServoT) :=
  (Kp s, Ki s, Kd s, max_output s, min_output s, backlash_takeup s,
   tolerance s, ramp_ticks s, stable_updates s, ramp_taper_percent s,
   peel_motor_enabled_by_servo s, default_peel_speed s,
   default_peel_run_time_ms s).

(** Every tick of [ios] reads a position within [tol] of [sp] and within
    [ramp] of it. *)
Fixpoint positions_within (sp tol ramp : Z) (ios : list TickIO)
    (e : EncoderT) : Prop :=
  match ios with
  | [] => True
  | io :: rest =>
      let e' := Encoder.updated (enc_ms io) (counter io) e in
      Z.abs (sp - _absolute_count e') <= tol
      /\ Z.abs (sp - _absolute_count e') <= ramp
      /\ positions_within sp tol ramp rest e'
  end.

(** * Reasoning about the programs *)

(** ** Booleans of the comparisons *)

Lemma Qleb_true (a b : Q) : Qleb a b = true <-> (a <= b)%Q.
Proof. apply Qle_bool_iff. Qed.

Lemma Qleb_false (a b : Q) : Qleb a b = false <-> (b < a)%Q.
Proof.
  unfold Qleb. split; intro H.
  - apply Qnot_le_lt. intro L. apply Qle_bool_iff in L. congruence.
  - destruct (Qle_bool a b) eqn:E; [|reflexivity].
    apply Qle_bool_iff in E. exfalso. exact (Qlt_not_le _ _ H E).
Qed.

Lemma Qltb_true (a b : Q) : Qltb a b = true <-> (a < b)%Q.
Proof.
  unfold Qltb. rewrite negb_true_iff. apply (Qleb_false b a).
Qed.

Lemma Qltb_false (a b : Q) : Qltb a b = false <-> (b <= a)%Q.
Proof.
  unfold Qltb. rewrite negb_false_iff. apply (Qleb_true b a).
Qed.

(** Turn every boolean comparison among the hypotheses into its proposition. *)
Ltac props :=
  repeat match goal with
  | H : Qleb _ _ = true |- _ => apply Qleb_true in H
  | H : Qleb _ _ = false |- _ => apply Qleb_false in H
  | H : Qltb _ _ = true |- _ => apply Qltb_true in H
  | H : Qltb _ _ = false |- _ => apply Qltb_false in H
  | H : Qeq_bool _ _ = true |- _ => apply Qeq_bool_iff in H
  | H : Qeq_bool _ _ = false |- _ => apply Qeq_bool_neq in H
  | H : (_ <? _) = true |- _ => apply Z.ltb_lt in H
  | H : (_ <? _) = false |- _ => apply Z.ltb_ge in H
  | H : (_ <=? _) = true |- _ => apply Z.leb_le in H
  | H : (_ <=? _) = false |- _ => apply Z.leb_gt in H
  | H : (_ =? _) = true |- _ => apply Z.eqb_eq in H
  | H : (_ =? _) = false |- _ => apply Z.eqb_neq in H
  | H : _ && _ = true |- _ => apply andb_true_iff in H; destruct H
  | H : negb _ = true |- _ => apply negb_true_iff in H
  | H : negb _ = false |- _ => apply negb_false_iff in H
  end.

(** Case analysis on every max and min of a goal about rationals. *)
Ltac minmax :=
  unfold pymax, pymin in *;
  repeat match goal with
  | |- context [if Qltb ?a ?b then _ else _] =>
      let E := fresh "E" in destruct (Qltb a b) eqn:E
  | H : context [if Qltb ?a ?b then _ else _] |- _ =>
      let E := fresh "E" in destruct (Qltb a b) eqn:E
  end;
  props.

Lemma pymax_lub (a b : Q) : (a <= pymax a b /\ b <= pymax a b)%Q.
Proof. minmax; split; lra. Qed.

Lemma pymin_glb (a b : Q) : (pymin a b <= a /\ pymin a b <= b)%Q.
Proof. minmax; split; lra. Qed.

Lemma Qabs_le_iff (x y : Q) : (Qabs x <= y <-> - y <= x <= y)%Q.
Proof. apply Qabs_Qle_condition. Qed.

Lemma Qabs_range (v : Q) :
  Qleb (-100) v && Qleb v 100 = true ->
  Qleb 0 (Qabs v) && Qleb (Qabs v) 100 = true.
Proof.
  intro H. props. apply andb_true_iff. split.
  - apply Qleb_true, Qabs_nonneg.
  - apply Qleb_true, Qabs_le_iff. split; lra.
Qed.

(** ** Evaluation of the monadic programs *)

Ltac py_cbn0 :=
  cbn [fst snd negb andb orb app
       _enabled auto_brake drive_pwm_min peel_pwm_min enable_invert
       enable_pin peel1_pwm peel2_pwm drive1_pwm drive2_pwm calls
       set_enabled set_auto_brake set_enable_pin set_peel1_pwm set_peel2_pwm
       set_drive1_pwm set_drive2_pwm set_calls
       default_speed default_time_ms _current_state _target_run_time_ms
       _run_start_time_ms _current_actual_speed
       set_current_state set_target_run_time_ms set_run_start_time_ms
       set_current_actual_speed peel_state_eqb
       ticks_per_revolution max_count invert _count _absolute_count
       _last_count _rpm _direction _delta _last_update_time_ms
       Kp Ki Kd pid_taper max_output min_output backlash_takeup tolerance
       ramp_ticks stable_updates ramp_taper_percent _integral
       _previous_error _last_time_us _setpoint _original_setpoint
       _target_reached _stable_count _initial_encoder_pos_at_move_start
       _initial_error_at_move_start _backlash_active
       _waiting_for_peel_idle_phase1 _current_movement_is_forward
       _derivative _derivative_alpha _dynamic_scale_threshold
       peel_motor_enabled_by_servo default_peel_speed
       default_peel_run_time_ms
       set_integral set_previous_error set_last_time_us set_setpoint
       set_original_setpoint set_target_reached set_stable_count
       set_initial_encoder_pos_at_move_start
       set_initial_error_at_move_start set_backlash_active
       set_waiting_for_peel_idle_phase1 set_current_movement_is_forward
       set_derivative set_peel_motor_enabled_by_servo
       drives encoder peel_motor self
       set_drives set_encoder set_peel_motor set_self] in *.

Lemma bind_gets {A B} (f : Machine -> A) (k : A -> M B) m :
  bind (gets f) k m = k (f m) m.
Proof. reflexivity. Qed.

Lemma bind_modify {B} (f : Machine -> Machine) (k : unit -> M B) m :
  bind (modify f) k m = k tt (f m).
Proof. reflexivity. Qed.

Lemma bind_ret {A B} (a : A) (k : A -> M B) m : bind (ret a) k m = k a m.
Proof. reflexivity. Qed.

Lemma bind_raise {A B} (e : exn) (k : A -> M B) m :
  bind (raise e) k m = (m, Exc e).
Proof. reflexivity. Qed.

Lemma bind_bind {A B C} (c : M A) (k1 : A -> M B) (k2 : B -> M C) m :
  bind (bind c k1) k2 m = bind c (fun a => bind (k1 a) k2) m.
Proof. unfold bind. destruct (c m) as [m' [a|e]]; reflexivity. Qed.

Lemma bind_eq {A B} (c : M A) (k : A -> M B) (m m' : Machine) r :
  c m = (m', r) ->
  bind c k m = match r with Val a => k a m' | Exc e => (m', Exc e) end.
Proof. intro E. unfold bind. rewrite E. reflexivity. Qed.

Lemma gets_eq {A} (f : Machine -> A) m : gets f m = (m, Val (f m)).
Proof. reflexivity. Qed.

Lemma modify_eq (f : Machine -> Machine) m : modify f m = (f m, Val tt).
Proof. reflexivity. Qed.

Lemma ret_eq {A} (a : A) m : ret a m = (m, Val a).
Proof. reflexivity. Qed.

Lemma raise_eq {A} (e : exn) m : @raise A e m = (m, Exc e).
Proof. reflexivity. Qed.

(** One pass of evaluation: the monad laws, then the attribute reads. *)
Ltac py_cbn :=
  unfold on_self, on_peel, on_drives, when, then_, returns, falls_through
    in *;
  repeat (progress
    (rewrite ?bind_bind, ?bind_gets, ?bind_modify, ?bind_ret, ?bind_raise,
       ?gets_eq, ?modify_eq, ?ret_eq, ?raise_eq;
     cbv beta iota zeta;
     py_cbn0;
     rewrite ?andb_false_r, ?andb_true_r, ?orb_false_r, ?orb_true_r)).

(** The first undecided condition of the program: split on its first atom. *)
Ltac split_cond c :=
  lazymatch c with
  | negb ?a => split_cond a
  | andb ?a ?b => first [split_cond a | split_cond b]
  | orb ?a ?b => first [split_cond a | split_cond b]
  | true => fail
  | false => fail
  | _ => let E := fresh "E" in destruct c eqn:E
  end.

Ltac py_step :=
  match goal with
  | |- context [if ?c then _ else _] => split_cond c
  end.

Ltac py_run := py_cbn; repeat (py_step; py_cbn).

Lemma drive_cmds_app (l1 l2 : list hw_call) :
  drive_cmds (l1 ++ l2) = drive_cmds l1 ++ drive_cmds l2.
Proof. unfold drive_cmds. apply flat_map_app. Qed.

Lemma drive_cmds_peel (l : list hw_call) :
  forallb is_peel_call l = true -> drive_cmds l = [].
Proof.
  induction l as [|c l IH]; [reflexivity|].
  cbn [forallb]. intro H. apply andb_true_iff in H. destruct H as [Hc Hl].
  destruct c; try discriminate. cbn. auto.
Qed.

Lemma peel_frame_refl m : peel_frame m m.
Proof.
  split; auto. exists []. rewrite app_nil_r. auto.
Qed.

Lemma pf_cmds m m' :
  peel_frame m m' ->
  drive_cmds (calls (drives m')) = drive_cmds (calls (drives m)).
Proof.
  intros [_ _ _ _ _ (l & -> & Hl) _].
  rewrite drive_cmds_app, (drive_cmds_peel l Hl). apply app_nil_r.
Qed.

Lemma peel_set_spec (v : Q) (m : Machine) :
  Qleb (-100) v && Qleb v 100 = true ->
  exists m',
    HBridge.peel_set v m = (m', Val tt)
    /\ peel_frame m m' /\ peel_motor m' = peel_motor m
    /\ calls (drives m') = calls (drives m) ++ [CallPeelSet v].
Proof.
  intro R. pose proof (Qabs_range v R) as R'.
  destruct m as [h e p s]; destruct h.
  unfold HBridge.peel_set, HBridge._set_motor_pwm, HBridge.log_call,
    HBridge.enabled.
  py_cbn. rewrite R, R'.
  py_run; eexists; (split; [reflexivity|]);
    (split; [split; py_cbn; auto; eexists; split; reflexivity|]);
    auto.
Qed.

Lemma drive_set_spec (v : Q) (m : Machine) :
  exists m' r,
    HBridge.drive_set v m = (m', r)
    /\ self m' = self m /\ encoder m' = encoder m
    /\ peel_motor m' = peel_motor m
    /\ _enabled (drives m') = _enabled (drives m)
    /\ calls (drives m') = calls (drives m) ++ [CallDriveSet v]
    /\ (Qleb (-100) v && Qleb v 100 = true -> r = Val tt).
Proof.
  destruct m as [h e p s]; destruct h.
  unfold HBridge.drive_set, HBridge._set_motor_pwm, HBridge.log_call,
    HBridge.enabled.
  py_cbn.
  destruct (Qleb (-100) v && Qleb v 100) eqn:R.
  - rewrite (Qabs_range v R).
    py_run; do 2 eexists; (split; [reflexivity|]); py_cbn; repeat split; auto.
  - py_run; do 2 eexists; (split; [reflexivity|]); py_cbn; repeat split; auto;
      discriminate.
Qed.

Lemma range_zero : Qleb (-100) 0 && Qleb 0 100 = true.
Proof. reflexivity. Qed.

Lemma range_opp (v : Q) :
  Qleb (-100) v && Qleb v 100 = true ->
  Qleb (-100) (- v) && Qleb (- v) 100 = true.
Proof.
  intro H. props. apply andb_true_iff. split; apply Qleb_true; lra.
Qed.

Lemma range_speed (s : Q) :
  Qleb (-100) (pymin (Qabs s) 100) && Qleb (pymin (Qabs s) 100) 100 = true.
Proof.
  pose proof (Qabs_nonneg s).
  apply andb_true_iff. split; apply Qleb_true; minmax; lra.
Qed.

Ltac range :=
  solve [ exact range_zero | apply range_speed
        | apply range_opp; range | assumption ].

(** Run the next call to the H-bridge through its specification. *)
Ltac exec_peel_set :=
  let m' := fresh "m" in
  let E := fresh "E" in
  let F := fresh "F" in
  let P := fresh "P" in
  let C := fresh "C" in
  match goal with
  | |- context [bind (HBridge.peel_set ?v) ?k ?m] =>
      destruct (peel_set_spec v m) as (m' & E & F & P & C);
      [ range | rewrite (bind_eq _ k m m' _ E); clear E ]
  | |- context [HBridge.peel_set ?v ?m] =>
      destruct (peel_set_spec v m) as (m' & E & F & P & C);
      [ range | rewrite E; clear E ]
  end.

Lemma set_state_spec (st : peel_state) (sp : Q) (m : Machine) :
  Qleb (-100) sp && Qleb sp 100 = true ->
  exists m',
    PeelMotor._set_state st (Some sp) m = (m', Val tt)
    /\ peel_frame m m'
    /\ _current_state (peel_motor m') = st.
Proof.
  intro R. destruct m as [h e p s]; destruct p as [ds dt cs tg t0 sp0].
  unfold PeelMotor._set_state. py_cbn.
  destruct st; py_cbn.
  - exec_peel_set. py_cbn. destruct F. py_cbn.
    eexists; split; [reflexivity|]. py_cbn.
    rewrite P. split; [split|]; py_cbn; auto.
  - destruct cs; py_cbn;
      try (destruct (Qeq_bool sp0 sp); py_cbn);
      try (eexists; split; [reflexivity|]; split;
           [apply peel_frame_refl|reflexivity]);
      exec_peel_set; destruct F; py_cbn;
      (eexists; split; [reflexivity|]); rewrite P;
      (split; [split|]); py_cbn; auto.
  - destruct cs; py_cbn;
      try (destruct (Qeq_bool sp0 sp); py_cbn);
      try (eexists; split; [reflexivity|]; split;
           [apply peel_frame_refl|reflexivity]);
      exec_peel_set; destruct F; py_cbn;
      (eexists; split; [reflexivity|]); rewrite P;
      (split; [split|]); py_cbn; auto.
Qed.

Lemma peel_frame_trans m1 m2 m3 :
  peel_frame m1 m2 -> peel_frame m2 m3 -> peel_frame m1 m3.
Proof.
  intros [] []. split; try (etransitivity; eassumption).
  - destruct pf_calls0 as (l0 & E0 & H0), pf_calls1 as (l1 & E1 & H1).
    exists (l0 ++ l1). rewrite E1, E0, <- app_assoc. split; [reflexivity|].
    rewrite forallb_app, H0, H1. reflexivity.
  - split; etransitivity; (apply pf_defaults1 || apply pf_defaults0).
Qed.

Lemma peel_frame_set_peel m p :
  default_speed p = default_speed (peel_motor m) ->
  default_time_ms p = default_time_ms (peel_motor m) ->
  peel_frame m (set_peel_motor p m).
Proof.
  intros. split; py_cbn; auto. exists []. rewrite app_nil_r. auto.
Qed.

Lemma peel_frame_step m m1 p :
  peel_frame m m1 ->
  default_speed p = default_speed (peel_motor m1) ->
  default_time_ms p = default_time_ms (peel_motor m1) ->
  peel_frame m (set_peel_motor p m1).
Proof.
  intros F H1 H2. eapply peel_frame_trans; [exact F|].
  apply peel_frame_set_peel; assumption.
Qed.

Ltac peel_framed :=
  repeat (apply peel_frame_step; [|reflexivity|reflexivity]);
  first [assumption | apply peel_frame_refl].

Ltac exec_set_state :=
  let m' := fresh "m" in
  let E := fresh "E" in
  let F := fresh "F" in
  let S := fresh "S" in
  match goal with
  | |- context [bind (PeelMotor._set_state ?st (Some ?sp)) ?k ?m] =>
      destruct (set_state_spec st sp m) as (m' & E & F & S);
      [ range | rewrite (bind_eq _ k m m' _ E); clear E ]
  | |- context [PeelMotor._set_state ?st (Some ?sp) ?m] =>
      destruct (set_state_spec st sp m) as (m' & E & F & S);
      [ range | rewrite E; clear E ]
  end.

Lemma run_spec (d : Z) (t : option Z) (s : Q) (now : Z) (m : Machine) :
  exists m',
    PeelMotor.run d t (Some s) now m = (m', Val tt)
    /\ peel_frame m m'
    /\ (forall ds, PeelMotor.state_map d = Some ds ->
          ds <> STATE_STOPPED -> 0 < run_time t m ->
          _current_state (peel_motor m') = ds).
Proof.
  unfold PeelMotor.run, run_time.
  destruct (PeelMotor.state_map d) as [ds|];
    [|eexists; split; [reflexivity|]; split;
      [apply peel_frame_refl|discriminate]].
  py_cbn.
  set (rt := match t with Some t0 => t0 | None => _ end).
  destruct (rt <? 0) eqn:Eneg.
  { eexists; split; [reflexivity|]; split; [apply peel_frame_refl|].
    intros; props; lia. }
  py_cbn.
  destruct (peel_state_eqb ds STATE_STOPPED
            || (rt =? 0) && negb (peel_state_eqb ds STATE_STOPPED)) eqn:Estop.
  { exec_set_state. eexists; split; [reflexivity|]; split; [exact F|].
    intros ds' [= <-] Hne Hpos.
    destruct ds; try congruence; cbn in Estop; props; lia. }
  py_cbn.
  match goal with
  | |- context [bind (if ?c then _ else _) _ _] => destruct c eqn:Echg
  end; py_cbn.
  - exec_set_state. py_cbn.
    eexists; split; [reflexivity|]. py_cbn. split.
    + peel_framed.
    + intros ds' [= <-] _ _. exact S.
  - eexists; split; [reflexivity|]. py_cbn. split.
    + peel_framed.
    + intros ds' [= <-] Hne _.
      apply orb_false_iff in Echg. destruct Echg as [Echg _].
      apply orb_false_iff in Echg. destruct Echg as [Echg _].
      apply negb_false_iff in Echg.
      destruct (_current_state (peel_motor m)), ds; try discriminate;
        reflexivity.
Qed.

Lemma peel_stop_spec (m : Machine) :
  exists m', Servo.peel_stop m = (m', Val tt) /\ peel_frame m m'.
Proof.
  unfold Servo.peel_stop, PeelMotor.run. cbn [PeelMotor.state_map Z.eqb].
  py_cbn.
  destruct (default_time_ms (peel_motor m) <? 0).
  - eexists; split; [reflexivity|apply peel_frame_refl].
  - py_cbn. exec_set_state. eexists; split; [reflexivity|exact F].
Qed.

Lemma peel_update_spec (now : Z) (m : Machine) :
  exists m', PeelMotor.update now m = (m', Val tt) /\ peel_frame m m'.
Proof.
  unfold PeelMotor.update. py_cbn.
  repeat (py_step; py_cbn);
    try (eexists; split; [reflexivity|apply peel_frame_refl]).
  exec_set_state. eexists; split; [reflexivity|exact F].
Qed.

Lemma peel_run_spec (d now : Z) (m : Machine) :
  exists m',
    Servo.peel_run d now m = (m', Val tt)
    /\ peel_frame m m'
    /\ (forall ds, PeelMotor.state_map d = Some ds ->
          ds <> STATE_STOPPED -> 0 < default_peel_run_time_ms (self m) ->
          _current_state (peel_motor m') = ds).
Proof.
  unfold Servo.peel_run. py_cbn. apply run_spec.
Qed.


(** ** The PID step *)

Lemma clamp_symmetric (y b : Q) :
  (Qabs (pymax (pymin y b) (- b)) <= Qabs b)%Q.
Proof.
  apply Qabs_case; intro Hb; apply Qabs_case; intro Hv; minmax; lra.
Qed.

Lemma pid_output_spec (io : TickIO) (error : Z) (m : Machine) :
  exists d x,
    Servo.pid_output io error m
    = (set_self
         (set_derivative d
            (set_integral (pid_integral io error (self m)) (self m))) m,
       Val (pymin (pymax x (min_output (self m))) (max_output (self m)))).
Proof.
  destruct m as [h e p s]; destruct s.
  unfold Servo.pid_output, pid_integral, pid_dt, max_integral. py_cbn.
  match goal with
  | |- context [bind (if ?c then _ else _) _ _] => destruct c
  end; py_cbn; do 2 eexists; reflexivity.
Qed.

(** ** Symbolic execution of the servo's methods *)

Ltac unfold_servo :=
  unfold Servo.update, Servo.movement_control, Servo.control_output,
    Servo.target_reached_check, Servo.overshoot_detection,
    Servo.phase1_completion, Servo.wait_before_phase1, Servo.enabled,
    Servo.set_target, Servo.enable, Servo.stop, Servo.disable,
    HBridge.enable, HBridge.enabled, PeelMotor.is_idle,
    Encoder.update, Encoder.absolute_count,
    HBridge.log_call in *.

(** Rewrite with the equations known about the stores met so far. *)
Ltac norm :=
  repeat match goal with
  | H : self ?x = _ |- context [self ?x] => rewrite H
  | H : encoder ?x = _ |- context [encoder ?x] => rewrite H
  | H : peel_motor ?x = _ |- context [peel_motor ?x] => rewrite H
  | H : _current_state (peel_motor ?x) = _
    |- context [_current_state (peel_motor ?x)] => rewrite H
  | H : _enabled (drives ?x) = _ |- context [_enabled (drives ?x)] =>
      rewrite H
  | H : calls (drives ?x) = _ |- context [calls (drives ?x)] => rewrite H
  | H : drive_cmds (calls (drives ?x)) = _
    |- context [drive_cmds (calls (drives ?x))] => rewrite H
  | H : ?b = true |- context [?b] => rewrite H
  | H : ?b = false |- context [?b] => rewrite H
  | |- _ => progress rewrite ?drive_cmds_app, <- ?app_assoc
  end.

Ltac open_frame F :=
  let Fs := fresh "Fs" in
  let Fe := fresh "Fe" in
  let Fen := fresh "Fen" in
  let Fc := fresh "Fc" in
  pose proof (pf_self _ _ F) as Fs;
  pose proof (pf_encoder _ _ F) as Fe;
  pose proof (pf_enabled _ _ F) as Fen;
  pose proof (pf_cmds _ _ F) as Fc.

Ltac exec_prim :=
  let m' := fresh "m" in
  let r := fresh "r" in
  let E := fresh "E" in
  let F := fresh "F" in
  let S := fresh "S" in
  let Hs := fresh "Hs" in
  let He := fresh "He" in
  let Hp := fresh "Hp" in
  let Hen := fresh "Hen" in
  let Hc := fresh "Hc" in
  let Hr := fresh "Hr" in
  match goal with
  | |- context [bind (PeelMotor.update ?t) ?k ?m] =>
      destruct (peel_update_spec t m) as (m' & E & F);
      rewrite (bind_eq _ k m m' _ E); clear E; open_frame F
  | |- context [bind Servo.peel_stop ?k ?m] =>
      destruct (peel_stop_spec m) as (m' & E & F);
      rewrite (bind_eq _ k m m' _ E); clear E; open_frame F
  | |- context [Servo.peel_stop ?m] =>
      destruct (peel_stop_spec m) as (m' & E & F);
      rewrite E; clear E; open_frame F
  | |- context [bind (Servo.peel_run ?d ?now) ?k ?m] =>
      destruct (peel_run_spec d now m) as (m' & E & F & S);
      rewrite (bind_eq _ k m m' _ E); clear E; open_frame F
  | |- context [Servo.peel_run ?d ?now ?m] =>
      destruct (peel_run_spec d now m) as (m' & E & F & S);
      rewrite E; clear E; open_frame F
  | |- context [bind (Servo.pid_output ?io ?err) ?k ?m] =>
      destruct (pid_output_spec io err m) as (?d & ?x & E);
      rewrite (bind_eq _ k m _ _ E); clear E
  | |- context [bind (HBridge.drive_set ?v) ?k ?m] =>
      destruct (drive_set_spec v m) as (m' & r & E & Hs & He & Hp & Hen & Hc & Hr);
      rewrite (bind_eq _ k m m' _ E); clear E;
      first [ specialize (Hr ltac:(range)); subst r
            | destruct r as [[]|?] ]
  | |- context [HBridge.drive_set ?v ?m] =>
      destruct (drive_set_spec v m) as (m' & r & E & Hs & He & Hp & Hen & Hc & Hr);
      rewrite E; clear E;
      first [ specialize (Hr ltac:(range)); subst r
            | destruct r as [[]|?] ]
  end.

Ltac settle := repeat (progress (py_cbn; norm)).
Ltac exec1 := first [ exec_prim | py_step ]; settle.
Ltac exec := settle; repeat exec1.


(** * The idle controller *)

(** One update() of a controller whose target is reached and that is not
    waiting for the peel motor. *)
Lemma idle_tick (io : TickIO) (m : Machine) :
  _target_reached (self m) = true ->
  _waiting_for_peel_idle_phase1 (self m) = false ->
  exists m',
    Servo.update io m = (m', Val false)
    /\ self m' = self m /\ encoder m' = encoder m
    /\ _enabled (drives m') = _enabled (drives m)
    /\ drive_log m' = drive_log m.
Proof.
  intros Hr Hw. unfold drive_log. unfold_servo.
  exec; eexists; (split; [reflexivity|]); norm; auto.
Qed.

Lemma idle_ticks (ios : list TickIO) (m : Machine) :
  _target_reached (self m) = true ->
  _waiting_for_peel_idle_phase1 (self m) = false ->
  Forall (eq (Val false)) (snd (ticks ios m))
  /\ self (fst (ticks ios m)) = self m
  /\ encoder (fst (ticks ios m)) = encoder m
  /\ _enabled (drives (fst (ticks ios m))) = _enabled (drives m)
  /\ drive_log (fst (ticks ios m)) = drive_log m.
Proof.
  revert m. induction ios as [|io ios IH]; intros m Hr Hw.
  - cbn. auto.
  - cbn [ticks].
    destruct (idle_tick io m Hr Hw) as (m1 & E & Hs & He & Hen & Hl).
    rewrite E.
    assert (Hr1 : _target_reached (self m1) = true) by (rewrite Hs; exact Hr).
    assert (Hw1 : _waiting_for_peel_idle_phase1 (self m1) = false)
      by (rewrite Hs; exact Hw).
    specialize (IH m1 Hr1 Hw1).
    destruct (ticks ios m1) as [m2 rs]. cbn [fst snd] in *.
    destruct IH as (IHr & IHs & IHe & IHen & IHl).
    repeat split; try congruence.
    constructor; auto.
Qed.


(** * The forward leg *)

Lemma overshoot_tick (io : TickIO) (m : Machine) :
  forward_leg m ->
  _setpoint (self m) < position_read io m ->
  tolerance (self m) < Z.abs (_setpoint (self m) - position_read io m) ->
  exists m',
    Servo.update io m = (m', Val false)
    /\ _target_reached (self m') = true
    /\ _waiting_for_peel_idle_phase1 (self m') = false
    /\ _setpoint (self m') = _setpoint (self m)
    /\ _stable_count (self m') = _stable_count (self m)
    /\ drive_log m' = drive_log m ++ [0%Q].
Proof.
  unfold forward_leg, position_read, drive_log.
  intros (Hen & Hr & Hw & Hf) Hpos Htol.
  apply Z.ltb_lt in Hpos, Htol.
  unfold_servo.
  exec; eexists; (split; [reflexivity|]); py_cbn; norm; auto.
Qed.

(** C3: in an update() of the forward leg that reads a position beyond the
    setpoint by more than the tolerance, the controller commands zero drive
    (and nothing else), sets target_reached and returns False; the updates
    that follow return False and command nothing, so no re-approach is
    made. *)
Theorem overshoot_declares_done (io : TickIO) (ios : list TickIO)
    (m : Machine) :
  forward_leg m ->
  _setpoint (self m) < position_read io m ->
  tolerance (self m) < Z.abs (_setpoint (self m) - position_read io m) ->
  let m1 := fst (Servo.update io m) in
  snd (Servo.update io m) = Val false
  /\ _target_reached (self m1) = true
  /\ drive_log m1 = drive_log m ++ [0%Q]
  /\ Forall (eq (Val false)) (snd (ticks ios m1))
  /\ drive_log (fst (ticks ios m1)) = drive_log m1
  /\ _target_reached (self (fst (ticks ios m1))) = true
  /\ _setpoint (self (fst (ticks ios m1))) = _setpoint (self m).
Proof.
  intros Hf Hpos Htol.
  destruct (overshoot_tick io m Hf Hpos Htol)
    as (m1 & E & Hr & Hw & Hsp & _ & Hl).
  rewrite E. cbn [fst snd].
  destruct (idle_ticks ios m1 Hr Hw) as (H1 & H2 & _ & _ & H5).
  repeat split; auto; rewrite H2; assumption.
Qed.


Lemma overshoot_declares_done_witness :
  let m := fst (Servo.set_target 100 (set_target_at 10 0)
                  (Servo.init hbridge0 (encoder_at 0) default_args)) in
  let io := tick_at 30 150 in
  let ios := [tick_at 50 150; tick_at 70 151] in
  (forward_leg m
   /\ _setpoint (self m) < position_read io m
   /\ tolerance (self m) < Z.abs (_setpoint (self m) - position_read io m))
  /\ snd (Servo.update io m) = Val false
  /\ _target_reached (self (fst (Servo.update io m))) = true
  /\ drive_log (fst (Servo.update io m)) = drive_log m ++ [0%Q].
Proof.
  intros m io ios.
  assert (Hf : forward_leg m) by (repeat split; reflexivity).
  assert (Hp : _setpoint (self m) < position_read io m) by reflexivity.
  assert (Ht : tolerance (self m)
               < Z.abs (_setpoint (self m) - position_read io m))
    by reflexivity.
  split; [repeat split; assumption|].
  destruct (overshoot_declares_done io ios m Hf Hp Ht) as (H1 & H2 & H3 & _).
  repeat split; assumption.
Defined.

(** * The peel motor *)

(** What the immediate stop of run() does: _set_state(STATE_STOPPED, 0). *)
Lemma stop_state (sp : Q) (m : Machine) :
  exists m',
    PeelMotor._set_state STATE_STOPPED (Some sp) m = (m', Val tt)
    /\ peel_motor m'
       = mkPeelMotor (default_speed (peel_motor m))
           (default_time_ms (peel_motor m)) STATE_STOPPED 0 0 0
    /\ calls (drives m') = calls (drives m) ++ [CallPeelSet 0]
    /\ self m' = self m /\ encoder m' = encoder m
    /\ _enabled (drives m') = _enabled (drives m).
Proof.
  unfold PeelMotor._set_state. py_cbn.
  exec_peel_set. py_cbn.
  eexists; split; [reflexivity|]. py_cbn.
  destruct F. py_cbn. rewrite P, C. py_cbn. repeat split; auto.
Qed.

(** C9: run(direction, time_ms, speed) with direction 1 or -1 and a run
    time of 0 is an immediate stop: the state becomes STATE_STOPPED, speed
    and timer are zeroed and peel_set(0) is commanded (whether or not the
    motor was moving); no run of zero duration is started. *)
Theorem run_zero_time_stops (d : Z) (time_ms : option Z) (speed : option Q)
    (now : Z) (m : Machine) :
  d = 1 \/ d = -1 ->
  run_time time_ms m = 0 ->
  exists m',
    PeelMotor.run d time_ms speed now m = (m', Val tt)
    /\ _current_state (peel_motor m') = STATE_STOPPED
    /\ _current_actual_speed (peel_motor m') = 0%Q
    /\ _run_start_time_ms (peel_motor m') = 0
    /\ _target_run_time_ms (peel_motor m') = 0
    /\ calls (drives m') = calls (drives m) ++ [CallPeelSet 0].
Proof.
  intros Hd Ht. unfold run_time in Ht. unfold PeelMotor.run.
  assert (Hs : exists ds, PeelMotor.state_map d = Some ds
                          /\ peel_state_eqb ds STATE_STOPPED = false).
  { destruct Hd; subst d; cbn; eexists; split; reflexivity. }
  destruct Hs as (ds & -> & Hne). py_cbn. rewrite Ht, Hne. cbn [Z.ltb Z.eqb Z.compare].
  py_cbn.
  destruct (stop_state 0 m) as (m' & E & Hp & Hc & _).
  exists m'. split; [exact E|]. rewrite Hp. py_cbn. auto.
Qed.

Lemma run_zero_time_stops_witness :
  let m := peel_running in
  (1 = 1 \/ 1 = -1) /\ run_time (Some 0) m = 0
  /\ exists m',
       PeelMotor.run 1 (Some 0) (Some 75%Q) 500 m = (m', Val tt)
       /\ _current_state (peel_motor m') = STATE_STOPPED
       /\ _current_actual_speed (peel_motor m') = 0%Q
       /\ _run_start_time_ms (peel_motor m') = 0
       /\ _target_run_time_ms (peel_motor m') = 0
       /\ calls (drives m') = calls (drives m) ++ [CallPeelSet 0].
Proof.
  intro m. split; [left; reflexivity|]. split; [reflexivity|].
  apply (run_zero_time_stops 1 (Some 0) (Some 75%Q) 500 m);
    [left; reflexivity|reflexivity].
Defined.

(** C8 as stated fails: with the motor running forward at 75 and 500 ms of
    its 1000 ms left, run(1, 0, 75) names the same direction and the same
    speed, yet it commands peel_set(0) and stops the motor instead of only
    resetting the timer. *)
Lemma same_run_with_zero_time_is_not_a_timer_reset :
  let m := peel_running in
  let m' := fst (PeelMotor.run 1 (Some 0) (Some 75%Q) 500 m) in
  (_current_state (peel_motor m) = STATE_FORWARD
   /\ Qeq_bool (_current_actual_speed (peel_motor m)) 75 = true
   /\ ticks_diff 500 (_run_start_time_ms (peel_motor m))
      < _target_run_time_ms (peel_motor m))
  /\ calls (drives m') = calls (drives m) ++ [CallPeelSet 0]
  /\ calls (drives m') <> calls (drives m)
  /\ _current_state (peel_motor m') = STATE_STOPPED
  /\ peel_motor m'
     <> set_target_run_time_ms 0 (set_run_start_time_ms 500 (peel_motor m)).
Proof.
  vm_compute. repeat split; try reflexivity; discriminate.
Qed.

(** C8, amended: for direction 1 or -1 and a run time above 0, a call with
    the direction and the speed of the running state only resets the timer
    and sends nothing to the H-bridge; a call that changes the direction or
    the speed commands peel_set with the new signed speed and restarts the
    timer. *)
Theorem run_resets_timer_or_commands (d : Z) (time_ms : option Z) (s : Q)
    (now : Z) (m : Machine) (ds : peel_state) :
  PeelMotor.state_map d = Some ds ->
  ds <> STATE_STOPPED ->
  0 < run_time time_ms m ->
  let speed := pymin (Qabs s) 100 in
  let cur := peel_motor m in
  let same := peel_state_eqb (_current_state cur) ds
              && Qeq_bool (_current_actual_speed cur) speed in
  exists m',
    PeelMotor.run d time_ms (Some s) now m = (m', Val tt)
    /\ _run_start_time_ms (peel_motor m') = now
    /\ _target_run_time_ms (peel_motor m') = run_time time_ms m
    /\ if same
       then m' = set_peel_motor
                   (set_target_run_time_ms (run_time time_ms m)
                      (set_run_start_time_ms now cur)) m
       else _current_state (peel_motor m') = ds
            /\ _current_actual_speed (peel_motor m') = speed
            /\ calls (drives m')
               = calls (drives m) ++ [CallPeelSet (signed_speed ds speed)].
Proof.
  intros Hmap Hne Hpos speed cur same. subst cur same.
  unfold run_time in *. unfold PeelMotor.run. rewrite Hmap. py_cbn.
  set (rt := match time_ms with Some t => t | None => _ end) in *.
  assert (Hneg : (rt <? 0) = false) by (apply Z.ltb_ge; lia).
  assert (Hz : (rt =? 0) = false) by (apply Z.eqb_neq; lia).
  rewrite Hneg, Hz. fold speed.
  unfold PeelMotor._set_state.
  destruct ds; [congruence| |];
    destruct (_current_state (peel_motor m)) eqn:Ecs; py_cbn;
    rewrite ?Ecs; py_cbn;
    try (destruct (Qeq_bool (_current_actual_speed (peel_motor m)) speed)
           eqn:Esp; py_cbn; rewrite ?Ecs, ?Esp; py_cbn);
    try (eexists; split; [reflexivity|]; py_cbn; auto; fail);
    exec_peel_set; destruct F; py_cbn;
    (eexists; split; [reflexivity|]); py_cbn; rewrite P, C; py_cbn; auto.
Qed.

Lemma run_resets_timer_or_commands_witness :
  let m := peel_running in
  (PeelMotor.state_map 1 = Some STATE_FORWARD
   /\ STATE_FORWARD <> STATE_STOPPED
   /\ 0 < run_time (Some 500) m)
  /\ exists m',
       PeelMotor.run 1 (Some 500) (Some 75%Q) 100 m = (m', Val tt)
       /\ _run_start_time_ms (peel_motor m') = 100
       /\ _target_run_time_ms (peel_motor m') = 500
       /\ m' = set_peel_motor
                 (set_target_run_time_ms 500
                    (set_run_start_time_ms 100 (peel_motor m))) m.
Proof.
  intro m.
  assert (H1 : PeelMotor.state_map 1 = Some STATE_FORWARD) by reflexivity.
  assert (H2 : STATE_FORWARD <> STATE_STOPPED) by discriminate.
  assert (H3 : 0 < run_time (Some 500) m) by reflexivity.
  split; [repeat split; assumption|].
  destruct (run_resets_timer_or_commands 1 (Some 500) 75%Q 100 m
              STATE_FORWARD H1 H2 H3) as (m' & E & Hs & Ht & Hsame).
  exists m'. repeat split; assumption.
Defined.

(** * Construction *)

(** C7 as stated fails: Servo(...) with tolerance=-10, max_output=5,
    min_output=80 and ramp_taper_percent=150 is constructed; the tolerance
    is stored as 10, the taper as 100, and max_output stays below
    min_output. *)
Lemma init_accepts_invalid_configuration :
  let s := self (Servo.init hbridge0 (encoder_at 0) invalid_args) in
  arg_tolerance invalid_args = -10 /\ tolerance s = 10
  /\ Qeq_bool (arg_ramp_taper_percent invalid_args) 150 = true
  /\ Qeq_bool (ramp_taper_percent s) 100 = true
  /\ Qeq_bool (max_output s) 5 = true /\ Qeq_bool (min_output s) 80 = true
  /\ Qltb (max_output s) (min_output s) = true.
Proof. vm_compute. repeat split; reflexivity. Qed.

(** C7, amended: construction accepts every configuration; max_output,
    min_output, backlash_takeup, tolerance and ramp_ticks are stored as
    absolute values, ramp_taper_percent is clamped to [0, 100], the gains
    and stable_updates are stored as given, and the controller starts idle
    with target_reached set. *)
Theorem init_normalises_configuration (d : HBridgeT) (e : EncoderT)
    (a : ServoArgs) :
  let s := self (Servo.init d e a) in
  max_output s = Qabs (arg_max_output a)
  /\ min_output s = Qabs (arg_min_output a)
  /\ backlash_takeup s = Z.abs (arg_backlash_takeup a)
  /\ tolerance s = Z.abs (arg_tolerance a)
  /\ ramp_ticks s = Z.abs (arg_ramp_ticks a)
  /\ ramp_taper_percent s = pymax 0 (pymin 100 (arg_ramp_taper_percent a))
  /\ (Kp s, Ki s, Kd s) = (arg_Kp a, arg_Ki a, arg_Kd a)
  /\ stable_updates s = arg_stable_updates a
  /\ configured s
  /\ _target_reached s = true
  /\ _waiting_for_peel_idle_phase1 s = false
  /\ _integral s = 0%Q.
Proof.
  unfold configured, Servo.init. py_cbn0.
  repeat split; try reflexivity;
    try apply Qabs_nonneg; try apply Z.abs_nonneg; minmax; lra.
Qed.

(** * The completion rule of the forward leg *)

Lemma clamp_zero (b : Q) :
  (0 <= b)%Q -> pymax (pymin 0 b) (- b) = 0%Q.
Proof.
  intro Hb. unfold pymax, pymin.
  assert (E1 : Qltb b 0 = false) by (apply Qltb_false; lra).
  rewrite E1.
  assert (E2 : Qltb 0 (- b) = false) by (apply Qltb_false; lra).
  rewrite E2. reflexivity.
Qed.

Lemma in_tolerance_completes (io : TickIO) (m : Machine) :
  forward_leg m ->
  Z.abs (_setpoint (self m) - position_read io m) <= tolerance (self m) ->
  stable_updates (self m) <= _stable_count (self m) + 1 ->
  exists m',
    Servo.update io m = (m', Val false)
    /\ _stable_count (self m') = _stable_count (self m) + 1
    /\ _target_reached (self m') = true
    /\ drive_log m' = drive_log m ++ [0%Q].
Proof.
  unfold forward_leg, position_read, drive_log.
  intros (Hen & Hr & Hw & Hf) Htol Hst.
  apply Z.leb_le in Htol, Hst.
  unfold_servo.
  exec; try (props; lia);
    eexists; (split; [reflexivity|]); py_cbn; norm; auto.
Qed.

Lemma in_tolerance_holds (io : TickIO) (m : Machine) :
  forward_leg m ->
  (0 <= max_output (self m))%Q ->
  Z.abs (_setpoint (self m) - position_read io m) <= tolerance (self m) ->
  _stable_count (self m) + 1 < stable_updates (self m) ->
  Z.abs (_setpoint (self m) - position_read io m) <= ramp_ticks (self m) ->
  exists m',
    Servo.update io m = (m', Val true)
    /\ _stable_count (self m') = _stable_count (self m) + 1
    /\ _target_reached (self m') = false
    /\ drive_log m' = drive_log m ++ [0; 0; 0]%Q.
Proof.
  unfold forward_leg, position_read, drive_log.
  intros (Hen & Hr & Hw & Hf) Hmax Htol Hst Hramp.
  apply Z.leb_le in Htol. apply Z.leb_gt in Hst. apply Z.ltb_ge in Hramp.
  unfold_servo.
  exec; try (props; lia).
  all: rewrite ?clamp_zero in * by assumption.
  all: try match goal with
           | H : _ -> Exc _ = Val _ |- _ => discriminate (H range_zero)
           end.
  all: eexists; (split; [reflexivity|]); py_cbn; norm; auto.
Qed.

Lemma below_tolerance_resets (io : TickIO) (m : Machine) :
  forward_leg m ->
  position_read io m <= _setpoint (self m) ->
  tolerance (self m) < Z.abs (_setpoint (self m) - position_read io m) ->
  _stable_count (self (fst (Servo.update io m))) = 0
  /\ _target_reached (self (fst (Servo.update io m))) = false.
Proof.
  unfold forward_leg, position_read.
  intros (Hen & Hr & Hw & Hf) Hpos Htol.
  apply Z.ltb_ge in Hpos. apply Z.ltb_lt in Htol.
  unfold_servo.
  exec; try (props; lia); cbn [fst snd]; norm; py_cbn; norm; auto.
Qed.

(** C4 as stated fails, in two places.  With ramp_ticks=0 and tolerance=10,
    an in-tolerance tick of the forward leg that is not yet the third
    commands zero and then 26.8 to the drive.  And a tick beyond the setpoint
    by more than the tolerance (an overshoot) leaves the stable counter at
    2 instead of resetting it. *)
Lemma completion_rule_counterexample :
  (let m := forward_move zero_ramp_args in
   let io := tick_at 30 95 in
   forward_leg m
   /\ Z.abs (_setpoint (self m) - position_read io m) <= tolerance (self m)
   /\ _stable_count (self m) + 1 < stable_updates (self m)
   /\ snd (Servo.update io m) = Val true
   /\ exists v, drive_log (fst (Servo.update io m)) = drive_log m ++ [0%Q; v]
                /\ Qeq_bool v (268 # 10) = true)
  /\ (let m := fst (ticks [tick_at 30 95; tick_at 50 96]
                      (forward_move default_args)) in
      let io := tick_at 70 150 in
      forward_leg m
      /\ tolerance (self m)
         < Z.abs (_setpoint (self m) - position_read io m)
      /\ _stable_count (self m) = 2
      /\ _stable_count (self (fst (Servo.update io m))) = 2).
Proof.
  split.
  - vm_compute. repeat split; try reflexivity; try discriminate.
    eexists; split; reflexivity.
  - vm_compute. repeat split; reflexivity.
Qed.

(** C4, amended: in an update() of the forward leg that reads a position
    within the tolerance of the setpoint, the stable counter is incremented;
    when it reaches stable_updates the controller commands zero drive, sets
    target_reached and returns False; before that, and when the distance is
    also within ramp_ticks, it commands only zero drive and returns True.
    An update() that reads a position short of the setpoint by more than the
    tolerance resets the stable counter to 0. *)
Theorem forward_leg_completion_rule (io : TickIO) (m : Machine) :
  forward_leg m ->
  (0 <= max_output (self m))%Q ->
  let distance := Z.abs (_setpoint (self m) - position_read io m) in
  let m' := fst (Servo.update io m) in
  (distance <= tolerance (self m) ->
     _stable_count (self m') = _stable_count (self m) + 1
     /\ (stable_updates (self m) <= _stable_count (self m) + 1 ->
           snd (Servo.update io m) = Val false
           /\ _target_reached (self m') = true
           /\ drive_log m' = drive_log m ++ [0%Q])
     /\ (_stable_count (self m) + 1 < stable_updates (self m) ->
         distance <= ramp_ticks (self m) ->
           snd (Servo.update io m) = Val true
           /\ _target_reached (self m') = false
           /\ exists l, drive_log m' = drive_log m ++ l
                        /\ l <> [] /\ Forall (fun v => v == 0)%Q l))
  /\ (tolerance (self m) < distance ->
      position_read io m <= _setpoint (self m) ->
        _stable_count (self m') = 0).
Proof.
  intros Hf Hmax distance m'. subst distance m'. split.
  - intro Htol.
    destruct (Z_le_gt_dec (stable_updates (self m)) (_stable_count (self m) + 1))
      as [Hst|Hst].
    + destruct (in_tolerance_completes io m Hf Htol Hst)
        as (m1 & E & Hc & Hr & Hl).
      rewrite E. cbn [fst snd].
      split; [exact Hc|].
      split; [intros _; repeat split; assumption|intros; lia].
    + split; [|split; [intros; lia|]].
      * destruct (Z_le_gt_dec
                    (Z.abs (_setpoint (self m) - position_read io m))
                    (ramp_ticks (self m))) as [Hramp|Hramp].
        -- destruct (in_tolerance_holds io m Hf Hmax Htol ltac:(lia) Hramp)
             as (m1 & E & Hc & _).
           rewrite E. exact Hc.
        -- (* the counter is incremented whatever the later output *)
           revert Htol Hst Hramp. destruct Hf as (Hen & Hr & Hw & Hfw).
           unfold position_read. intros Htol Hst Hramp.
           apply Z.gt_lt in Hst, Hramp.
           apply Z.leb_le in Htol. apply Z.leb_gt in Hst.
           apply Z.ltb_lt in Hramp.
           unfold_servo.
           exec; try (props; lia); cbn [fst snd]; norm; py_cbn; norm; auto.
      * intros _ Hramp.
        destruct (in_tolerance_holds io m Hf Hmax Htol ltac:(lia) Hramp)
          as (m1 & E & Hc & Hr & Hl).
        rewrite E. cbn [fst snd].
        split; [reflexivity|]. split; [exact Hr|].
        exists [0; 0; 0]%Q. split; [exact Hl|]. split; [discriminate|].
        repeat constructor; reflexivity.
  - intros Htol Hpos.
    apply (below_tolerance_resets io m Hf Hpos Htol).
Qed.

Lemma forward_leg_completion_rule_witness :
  let m := forward_move default_args in
  let io := tick_at 30 95 in
  (forward_leg m /\ (0 <= max_output (self m))%Q)
  /\ Z.abs (_setpoint (self m) - position_read io m) <= tolerance (self m)
  /\ _stable_count (self (fst (Servo.update io m))) = _stable_count (self m) + 1.
Proof.
  intros m io.
  assert (Hf : forward_leg m) by (repeat split; reflexivity).
  assert (Hm : (0 <= max_output (self m))%Q) by discriminate.
  assert (Ht : Z.abs (_setpoint (self m) - position_read io m)
               <= tolerance (self m)) by discriminate.
  split; [split; assumption|]. split; [assumption|].
  destruct (forward_leg_completion_rule io m Hf Hm) as [H _].
  exact (proj1 (H Ht)).
Defined.

(** * The limits of the drive output *)

Lemma progress_unit (p : Q) : (0 <= pymax 0 (pymin 1 p) <= 1)%Q.
Proof. minmax; split; lra. Qed.










(** * Anti-windup *)

Lemma integral_bounded_zero (s : ServoT) :
  _integral s = 0%Q -> integral_bounded s.
Proof.
  unfold integral_bounded. intros ->. cbn [Qabs Qnum Z.abs].
  apply Qabs_nonneg.
Qed.

(** Each call of a client keeps the gains, the limits and the bound. *)
Lemma call_keeps_windup (c : servo_call) (m : Machine) (s0 : ServoT) :
  windup_inv s0 (self m) -> windup_inv s0 (self (do_call c m)).
Proof.
  intros (HK & HM & HI).
  destruct c as [t io|io| |b]; cbn [do_call]; [| | |destruct b];
    unfold_servo; exec;
    unfold windup_inv, integral_bounded, max_integral, pid_integral in *;
    cbn [fst snd]; norm; py_cbn; norm; py_cbn0;
    repeat split; try reflexivity; try assumption;
    try (apply Qabs_nonneg);
    try (apply clamp_symmetric).
Qed.

Lemma calls_keep_windup (cs : list servo_call) (m : Machine) (s0 : ServoT) :
  windup_inv s0 (self m) -> windup_inv s0 (self (do_calls cs m)).
Proof.
  revert m. unfold do_calls.
  induction cs as [|c cs IH]; intros m H; [exact H|].
  cbn [fold_left]. apply IH, call_keeps_windup, H.
Qed.

(** C2 as stated fails: with Ki = -0.001 and max_output = 80 the first PID
    tick of a forward move clamps the integral to 80000, above
    max_output / Ki = -80000. *)
Lemma integral_above_bound_for_negative_ki :
  let m := forward_move negative_ki_args in
  let s' := self (fst (Servo.update (tick_at 30 0) m)) in
  Qeq_bool (Ki s') 0 = false
  /\ Qeq_bool (_integral s') 80000 = true
  /\ Qeq_bool (max_output s' / Ki s') (-80000) = true
  /\ Qleb (Qabs (_integral s')) (max_output s' / Ki s') = false.
Proof. vm_compute. repeat split; reflexivity. Qed.

(** C2, amended: after construction and any sequence of set_target(),
    update(), stop() and enable() calls, the integral satisfies
    |integral| <= |max_output / Ki| when Ki != 0 (so |integral| <=
    max_output / Ki when Ki > 0) and |integral| <= max_output when
    Ki == 0. *)
Theorem integral_is_clamped (d : HBridgeT) (e : EncoderT) (a : ServoArgs)
    (cs : list servo_call) :
  let s := self (do_calls cs (Servo.init d e a)) in
  (~ Ki s == 0 -> Qabs (_integral s) <= Qabs (max_output s / Ki s))%Q
  /\ (0 < Ki s -> Qabs (_integral s) <= max_output s / Ki s)%Q
  /\ (Ki s == 0 -> Qabs (_integral s) <= max_output s)%Q.
Proof.
  intro s.
  assert (H : windup_inv (self (Servo.init d e a)) s).
  { apply calls_keep_windup. repeat split.
    apply integral_bounded_zero. reflexivity. }
  destruct H as (HK & HM & HI).
  assert (Hmax : (0 <= max_output s)%Q).
  { rewrite HM. unfold Servo.init. py_cbn0. apply Qabs_nonneg. }
  unfold integral_bounded, max_integral in HI.
  repeat split.
  - intro Hne.
    destruct (Qeq_bool (Ki s) 0) eqn:E;
      [apply Qeq_bool_iff in E; contradiction|exact HI].
  - intro Hpos.
    destruct (Qeq_bool (Ki s) 0) eqn:E;
      [apply Qeq_bool_iff in E; lra|].
    cbn [negb] in HI.
    assert (Hq : (0 <= max_output s / Ki s)%Q).
    { apply Qle_shift_div_l; [exact Hpos|lra]. }
    rewrite (Qabs_pos (max_output s / Ki s)) in HI by exact Hq. exact HI.
  - intro Hz. apply Qeq_bool_iff in Hz. rewrite Hz in HI. cbn [negb] in HI.
    rewrite (Qabs_pos (max_output s)) in HI by exact Hmax. exact HI.
Qed.

Lemma integral_is_clamped_witness :
  let s := self (do_calls [DoSetTarget 100 (set_target_at 10 0);
                           DoUpdate (tick_at 30 0)]
                   (Servo.init hbridge0 (encoder_at 0) default_args)) in
  (0 < Ki s)%Q /\ (Qabs (_integral s) <= max_output s / Ki s)%Q.
Proof.
  intro s.
  assert (Hpos : (0 < Ki s)%Q) by reflexivity.
  split; [exact Hpos|].
  exact (proj1 (proj2 (integral_is_clamped hbridge0 (encoder_at 0)
                         default_args _)) Hpos).
Defined.

(** * set_target() and the enable state *)




(** * The backlash-compensated reverse move *)

(** set_target() below the current position starts the reverse leg. *)
Lemma set_target_backward (t : Z) (io : SetTargetIO) (m : Machine) :
  let pos := _absolute_count
               (Encoder.updated (st_enc_ms io) (st_counter io) (encoder m)) in
  let idle := peel_state_eqb (_current_state (peel_motor m)) STATE_STOPPED in
  t < pos ->
  exists m',
    Servo.set_target t io m = (m', Val tt)
    /\ reverse_leg m'
    /\ _setpoint (self m')
       = t - (ramp_ticks (self m) + backlash_takeup (self m))
    /\ _original_setpoint (self m') = t
    /\ _waiting_for_peel_idle_phase1 (self m')
       = peel_motor_enabled_by_servo (self m) && negb idle.
Proof.
  intros pos idle Hlt. subst pos idle. apply Z.ltb_lt in Hlt.
  unfold reverse_leg. unfold_servo.
  exec; eexists; (split; [reflexivity|]); norm; py_cbn; norm;
    repeat split; reflexivity.
Qed.

(** In the reverse leg itself (not waiting), the tick that reads a position
    at or below the overshoot point with the peel motor idle, or not in use,
    substitutes the target for the setpoint and turns forward. *)
Lemma reverse_leg_completes (io : TickIO) (m : Machine) :
  reverse_leg m ->
  _waiting_for_peel_idle_phase1 (self m) = false ->
  position_read io m <= _setpoint (self m) ->
  peel_motor_enabled_by_servo (self m) = false
  \/ _current_state (peel_motor (fst (PeelMotor.update (peel_update_ms io) m)))
     = STATE_STOPPED ->
  let m' := fst (Servo.update io m) in
  _setpoint (self m') = _original_setpoint (self m)
  /\ _current_movement_is_forward (self m') = true
  /\ _waiting_for_peel_idle_phase1 (self m') = false.
Proof.
  unfold reverse_leg, position_read.
  intros (Hen & Hr & Hb & Hf) Hw Hpos Hidle. apply Z.leb_le in Hpos.
  unfold_servo. py_cbn.
  destruct (peel_motor_enabled_by_servo (self m)) eqn:Ep.
  - destruct Hidle as [Hidle|Hidle]; [discriminate|].
    destruct (peel_update_spec (peel_update_ms io) m) as (m1 & E1 & F1).
    rewrite E1 in Hidle. cbn [fst] in Hidle.
    rewrite (bind_eq _ _ m m1 _ E1). open_frame F1.
    exec; try (props; lia); try discriminate;
      cbn [fst snd]; norm; py_cbn; norm; auto.
  - exec; try (props; lia); try discriminate;
      cbn [fst snd]; norm; py_cbn; norm; auto.
Qed.

(** The defect: once Phase 1 is over and the controller waits for a peel
    motor that is in use, a tick that reads a position at or below the
    setpoint never starts the forward leg.  If the peel motor is still
    running the tick waits; if it is idle the tick takes the wait for the one
    before Phase 1, starts the peel motor in reverse again and waits for
    it. *)
Lemma waiting_after_reverse_leg_tick (sp : Z) (io : TickIO) (m : Machine) :
  waiting_after_reverse_leg sp m ->
  position_read io m <= sp ->
  exists m',
    Servo.update io m = (m', Val true)
    /\ waiting_after_reverse_leg sp m'
    /\ encoder m' = Encoder.updated (enc_ms io) (counter io) (encoder m)
    /\ _original_setpoint (self m') = _original_setpoint (self m).
Proof.
  unfold waiting_after_reverse_leg, reverse_leg, position_read.
  intros ((Hen & Hr & Hb & Hf) & Hw & Hp & Ht & Hsp) Hpos.
  rewrite <- Hsp in Hpos. apply Z.leb_le in Hpos.
  unfold_servo.
  exec;
    (* a run of the peel motor just started leaves it not idle *)
    try match goal with
    | S : forall ds, PeelMotor.state_map ?d = Some ds -> _ ->
            0 < ?t -> _current_state (peel_motor ?x) = ds,
      E : peel_state_eqb (_current_state (peel_motor ?x)) STATE_STOPPED
          = true
      |- _ =>
        let Hrun := fresh "Hrun" in
        exfalso;
        assert (Hrun : 0 < t) by (py_cbn0; norm; py_cbn0; assumption);
        rewrite (S _ eq_refl ltac:(discriminate) Hrun) in E;
        discriminate E
    end;
    try discriminate;
    eexists; (split; [reflexivity|]); norm; py_cbn; norm;
    repeat split; auto.
Qed.

Lemma waiting_after_reverse_leg_ticks (sp : Z) (ios : list TickIO)
    (m : Machine) :
  waiting_after_reverse_leg sp m ->
  positions_below sp ios (encoder m) ->
  Forall (eq (Val true)) (snd (ticks ios m))
  /\ waiting_after_reverse_leg sp (fst (ticks ios m))
  /\ _original_setpoint (self (fst (ticks ios m)))
     = _original_setpoint (self m).
Proof.
  revert m. induction ios as [|io ios IH]; intros m Hw Hbelow.
  - cbn. auto.
  - cbn [positions_below] in Hbelow. destruct Hbelow as [Hpos Hrest].
    destruct (waiting_after_reverse_leg_tick sp io m Hw Hpos)
      as (m1 & E & Hw1 & He & Ho).
    cbn [ticks]. rewrite E. rewrite <- He in Hrest.
    specialize (IH m1 Hw1 Hrest).
    destruct (ticks ios m1) as [m2 rs]. cbn [fst snd] in *.
    destruct IH as (IHr & IHw & IHo).
    repeat split; try apply IHw; try congruence.
    constructor; auto.
Qed.

(** C1, where the code departs from it.  Scenario B with the peel motor in
    use: set_target(-100) from 300 starts the reverse leg toward -550 and
    the peel motor for 1000 ms.  The position reaches -550 at 500 ms, so
    update() zeroes the drive and waits for the peel motor.  In the tick at
    1020 ms the position is at the setpoint and the peel motor has become
    idle, yet the setpoint stays -550 and the movement stays backward: the
    peel motor is started in reverse again, and the same holds in every
    later tick that reads a position at or below -550. *)
Theorem reverse_leg_wait_never_ends (ios : list TickIO) :
  let m0 := Servo.init hbridge0 (encoder_at 300) scenario_b_args in
  let m1 := fst (Servo.set_target (-100) (set_target_at 10 300) m0) in
  let m2 := fst (Servo.update (tick_at 500 64986) m1) in
  let io3 := tick_at 1020 64986 in
  let m3 := fst (Servo.update io3 m2) in
  (reverse_leg m1 /\ _setpoint (self m1) = -550
   /\ _original_setpoint (self m1) = -100)
  /\ (position_read io3 m2 <= _setpoint (self m2)
      /\ _current_state
           (peel_motor (fst (PeelMotor.update (peel_update_ms io3) m2)))
         = STATE_STOPPED)
  /\ (_setpoint (self m3) = -550
      /\ _current_movement_is_forward (self m3) = false
      /\ _current_state (peel_motor m3) = STATE_REVERSE)
  /\ (positions_below (-550) ios (encoder m3) ->
      Forall (eq (Val true)) (snd (ticks ios m3))
      /\ _setpoint (self (fst (ticks ios m3))) = -550
      /\ _current_movement_is_forward (self (fst (ticks ios m3))) = false).
Proof.
  intros m0 m1 m2 io3 m3.
  split; [vm_compute; repeat split; reflexivity|].
  split; [vm_compute; split; [discriminate|reflexivity]|].
  split; [vm_compute; repeat split; reflexivity|].
  intro Hbelow.
  assert (Hw : waiting_after_reverse_leg (-550) m3)
    by (vm_compute; repeat split; reflexivity).
  destruct (waiting_after_reverse_leg_ticks (-550) ios m3 Hw Hbelow)
    as (Hr & Hw' & _).
  split; [exact Hr|].
  destruct Hw' as ((_ & _ & _ & Hf) & _ & _ & _ & Hsp).
  split; assumption.
Qed.

Lemma reverse_leg_wait_never_ends_witness :
  let m0 := Servo.init hbridge0 (encoder_at 300) scenario_b_args in
  let m1 := fst (Servo.set_target (-100) (set_target_at 10 300) m0) in
  let m2 := fst (Servo.update (tick_at 500 64986) m1) in
  let m3 := fst (Servo.update (tick_at 1020 64986) m2) in
  let ios := [tick_at 1040 64986; tick_at 2060 64986; tick_at 2080 64980] in
  positions_below (-550) ios (encoder m3)
  /\ Forall (eq (Val true)) (snd (ticks ios m3))
  /\ _setpoint (self (fst (ticks ios m3))) = -550
  /\ _current_movement_is_forward (self (fst (ticks ios m3))) = false.
Proof.
  intros m0 m1 m2 m3 ios.
  assert (Hb : positions_below (-550) ios (encoder m3)).
  { vm_compute. repeat split; discriminate. }
  split; [exact Hb|].
  exact (proj2 (proj2 (proj2 (reverse_leg_wait_never_ends ios))) Hb).
Defined.

(** * The encoder *)

Lemma wrap_step (N h r d : Z) :
  0 < N -> h = (N - 1) / 2 -> 0 <= r < N -> Z.abs d <= h ->
  let raw := (r + d) mod N - r in
  (if h <? Z.abs raw
   then (if 0 <? raw then raw - N else raw + N)
   else raw) = d.
Proof.
  intros HN Hh Hr Hd raw.
  assert (H2 : 2 * h <= N - 1) by (subst h; apply Z.mul_div_le; lia).
  assert (Hcases : (r + d) mod N = r + d \/ (r + d) mod N = r + d - N
                   \/ (r + d) mod N = r + d + N).
  { destruct (Z_lt_dec (r + d) 0) as [Hneg|Hnn].
    - right; right. symmetry. apply Z.mod_unique with (q := -1); lia.
    - destruct (Z_lt_dec (r + d) N) as [Hlt|Hge].
      + left. apply Z.mod_small. lia.
      + right; left. symmetry. apply Z.mod_unique with (q := 1); lia. }
  subst raw.
  destruct Hcases as [E|[E|E]]; rewrite E;
    pose proof (Z.mod_pos_bound (r + d) N HN) as Hb; rewrite E in Hb;
    destruct (h <? Z.abs _) eqn:Eh;
    try (apply Z.ltb_lt in Eh); try (apply Z.ltb_ge in Eh);
    try (destruct (0 <? _) eqn:Es;
         [apply Z.ltb_lt in Es|apply Z.ltb_ge in Es]); lia.
Qed.

Lemma updated_fields (now c : Z) (e : EncoderT) :
  let raw := c - _last_count e in
  let resolved :=
    if max_count e / 2 <? Z.abs raw
    then (if 0 <? raw then raw - (max_count e + 1)
          else raw + (max_count e + 1))
    else raw in
  let delta := if invert e then - resolved else resolved in
  _delta (Encoder.updated now c e) = delta
  /\ _absolute_count (Encoder.updated now c e) = _absolute_count e + delta
  /\ _direction (Encoder.updated now c e) = Z.sgn delta
  /\ _last_count (Encoder.updated now c e) = c
  /\ _count (Encoder.updated now c e) = c
  /\ max_count (Encoder.updated now c e) = max_count e
  /\ invert (Encoder.updated now c e) = invert e.
Proof.
  unfold Encoder.updated. cbv zeta. py_cbn0.
  repeat split.
  match goal with |- context [if 0 <? ?d then _ else _] =>
    destruct (0 <? d) eqn:E1; [apply Z.ltb_lt in E1; lia|];
    destruct (d <? 0) eqn:E2;
      [apply Z.ltb_lt in E2|apply Z.ltb_ge in E2; apply Z.ltb_ge in E1]; lia
  end.
Qed.

(** One update() after a move of at most half the counter range. *)
Lemma wraparound_resolved (now p d : Z) (e : EncoderT) :
  0 < max_count e ->
  _last_count e = counter_at e p ->
  Z.abs d <= max_count e / 2 ->
  let e' := Encoder.updated now (counter_at e (p + d)) e in
  let delta := if invert e then - d else d in
  _delta e' = delta
  /\ _absolute_count e' = _absolute_count e + delta
  /\ _direction e' = Z.sgn delta
  /\ _last_count e' = counter_at e' (p + d).
Proof.
  intros Hmax Hlast Hd e' delta. subst e' delta.
  destruct (updated_fields now (counter_at e (p + d)) e)
    as (H1 & H2 & H3 & H4 & _ & H6 & _).
  cbv zeta in *.
  assert (W : (if max_count e / 2 <? Z.abs (counter_at e (p + d) - _last_count e)
               then (if 0 <? counter_at e (p + d) - _last_count e
                     then counter_at e (p + d) - _last_count e
                          - (max_count e + 1)
                     else counter_at e (p + d) - _last_count e
                          + (max_count e + 1))
               else counter_at e (p + d) - _last_count e) = d).
  { rewrite Hlast. unfold counter_at.
    rewrite <- (Zplus_mod_idemp_l p d).
    apply (wrap_step (max_count e + 1) (max_count e / 2) (p mod (max_count e + 1)) d);
      try lia.
    - f_equal. lia.
    - apply Z.mod_pos_bound. lia. }
  rewrite W in *.
  repeat split; assumption.
Qed.

(** X1: encoder.update() resolves the wrap-around of the hardware counter:
    when the last reading was taken at true position p and the position has
    since moved by d, with |d| at most max_count // 2, the delta it reports
    is d (negated when the encoder is inverted), the absolute count advances
    by it and the direction is its sign, also across the ends of the counter
    range. *)
Theorem encoder_resolves_wraparound (now p d : Z) (e : EncoderT) :
  0 < max_count e ->
  _last_count e = counter_at e p ->
  Z.abs d <= max_count e / 2 ->
  let e' := Encoder.updated now (counter_at e (p + d)) e in
  let delta := if invert e then - d else d in
  _delta e' = delta
  /\ _absolute_count e' = _absolute_count e + delta
  /\ _direction e' = Z.sgn delta
  /\ _last_count e' = counter_at e' (p + d).
Proof. exact (wraparound_resolved now p d e). Qed.

Lemma encoder_resolves_wraparound_witness :
  let e := Encoder.updated 0 65530 (encoder_at 65530) in
  (0 < max_count e /\ _last_count e = counter_at e (-6)
   /\ Z.abs 10 <= max_count e / 2)
  /\ _delta (Encoder.updated 20 4 e) = 10
  /\ _absolute_count (Encoder.updated 20 4 e) = 65540.
Proof.
  intro e.
  assert (H0 : 0 < max_count e) by reflexivity.
  assert (H1 : _last_count e = counter_at e (-6)) by reflexivity.
  assert (H2 : Z.abs 10 <= max_count e / 2) by discriminate.
  split; [repeat split; assumption|].
  destruct (encoder_resolves_wraparound 20 (-6) 10 e H0 H1 H2)
    as (Hd & Ha & _).
  split; [exact Hd|exact Ha].
Defined.

Lemma last_cons_default (ps : list Z) (q p : Z) :
  last (q :: ps) p = last ps q.
Proof.
  revert q p. induction ps as [|x ps IH]; intros q p; [reflexivity|].
  change (last (q :: x :: ps) p) with (last (x :: ps) p).
  rewrite (IH x p), (IH x q). reflexivity.
Qed.

Lemma encoder_feed_tracks (e : EncoderT) (p : Z) (ps : list Z)
    (ts : list Z) :
  0 < max_count e ->
  invert e = false ->
  _last_count e = counter_at e p ->
  small_steps (max_count e / 2) p ps ->
  List.length ts = List.length ps ->
  let rs := combine ts (map (counter_at e) ps) in
  _absolute_count (encoder_feed rs e)
  = _absolute_count e + (last ps p - p).
Proof.
  revert e p ts. induction ps as [|q ps IH]; intros e p ts Hmax Hinv Hlast Hs Hlen.
  - destruct ts; cbn; lia.
  - destruct ts as [|t ts]; [discriminate|].
    cbn [small_steps] in Hs. destruct Hs as [Hq Hrest].
    cbn [map combine encoder_feed fold_left fst snd].
    pose proof (wraparound_resolved t p (q - p) e Hmax Hlast Hq)
      as (Hd & Ha & _ & Hl).
    cbv zeta in *. rewrite Hinv in *.
    replace (p + (q - p)) with q in * by lia.
    destruct (updated_fields t (counter_at e q) e) as (_ & _ & _ & _ & _ & Hm & Hi).
    set (e1 := Encoder.updated t (counter_at e q) e) in *.
    assert (Hc : map (counter_at e) ps = map (counter_at e1) ps).
    { apply map_ext. intro x. unfold counter_at. rewrite Hm. reflexivity. }
    rewrite Hc.
    specialize (IH e1 q ts).
    unfold encoder_feed in IH. cbv zeta in IH.
    assert (Hlen' : List.length ts = List.length ps)
      by (cbn in Hlen; lia).
    rewrite IH; try (rewrite ?Hm, ?Hi; auto; lia); try assumption.
    rewrite Ha, (last_cons_default ps q p). lia.
Qed.

(** X2: after reset(), for every sequence of update() calls whose
    consecutive samples are each within max_count // 2 of the one before,
    the absolute count of a non-inverted encoder is the true displacement
    since the reset, however often the 16-bit counter wrapped. *)
Theorem encoder_tracks_position_after_reset (now : Z) (e : EncoderT)
    (ps ts : list Z) :
  0 < max_count e ->
  invert e = false ->
  small_steps (max_count e / 2) 0 ps ->
  List.length ts = List.length ps ->
  let e0 := Encoder.after_reset now e in
  _absolute_count (encoder_feed (combine ts (map (counter_at e0) ps)) e0)
  = last ps 0.
Proof.
  intros Hmax Hinv Hs Hlen e0.
  pose proof (encoder_feed_tracks e0 0 ps ts) as H.
  cbv zeta in H. rewrite H; try assumption; subst e0;
    unfold Encoder.after_reset, counter_at; py_cbn0;
    try reflexivity; lia.
Qed.

Lemma encoder_tracks_position_after_reset_witness :
  let e := encoder_at 123 in
  let ps := [30000; 60000; 70000; 40000; 10000; -5] in
  let ts := [20; 40; 60; 80; 100; 120] in
  (0 < max_count e /\ invert e = false
   /\ small_steps (max_count e / 2) 0 ps /\ List.length ts = List.length ps)
  /\ _absolute_count
       (encoder_feed (combine ts (map (counter_at (Encoder.after_reset 0 e)) ps))
          (Encoder.after_reset 0 e)) = -5.
Proof.
  intros e ps ts.
  assert (H0 : 0 < max_count e) by reflexivity.
  assert (H1 : invert e = false) by reflexivity.
  assert (H2 : small_steps (max_count e / 2) 0 ps)
    by (cbn [small_steps]; repeat split; vm_compute; discriminate).
  assert (H3 : List.length ts = List.length ps) by reflexivity.
  split; [exact (conj H0 (conj H1 (conj H2 H3)))|].
  exact (encoder_tracks_position_after_reset 0 e ps ts H0 H1 H2 H3).
Defined.

(** * The H-bridge *)

Lemma py_int_floor (x : Q) : (0 <= x)%Q -> py_int x = Qfloor x.
Proof.
  intro H. unfold py_int. destruct x as [n d]. cbn [Qnum Qden Qfloor].
  apply Z.quot_div_nonneg; [|lia].
  unfold Qle in H. cbn in H. lia.
Qed.

Lemma py_int_mono (x y : Q) :
  (0 <= x)%Q -> (x <= y)%Q -> py_int x <= py_int y.
Proof.
  intros H0 Hle. rewrite !py_int_floor by lra. apply Qfloor_resp_le, Hle.
Qed.

Lemma py_int_eq (x y : Q) : (0 <= x)%Q -> (x == y)%Q -> py_int x = py_int y.
Proof.
  intros H0 E. rewrite !py_int_floor by lra. apply Qfloor_comp, E.
Qed.

Lemma actual_pwm_bounds (pwm_min speed : Q) :
  (0 <= pwm_min <= 100)%Q ->
  py_int pwm_min <= HBridge.actual_pwm pwm_min speed <= 100.
Proof.
  intros [H0 H1]. unfold HBridge.actual_pwm. cbv zeta.
  set (x := if Qleb 100 pwm_min then _ else _).
  assert (Hv : (pwm_min <= pymax pwm_min (pymin 100 x) <= 100)%Q)
    by (minmax; split; lra).
  destruct Hv as [Hv1 Hv2].
  split.
  - apply py_int_mono; lra.
  - apply Z.le_trans with (py_int 100);
      [apply py_int_mono; lra|discriminate].
Qed.

(** X3: a disabled H-bridge ignores drive_set() and peel_set(): whatever
    the speed, also outside -100..100, the call returns without an error,
    writes no PWM channel and leaves the bridge disabled. *)
Theorem disabled_bridge_ignores_commands (v : Q) (m : Machine) :
  _enabled (drives m) = false ->
  (exists m', HBridge.drive_set v m = (m', Val tt)
              /\ duties (drives m') = duties (drives m)
              /\ _enabled (drives m') = false)
  /\ (exists m', HBridge.peel_set v m = (m', Val tt)
                 /\ duties (drives m') = duties (drives m)
                 /\ _enabled (drives m') = false).
Proof.
  intro Hen. destruct m as [h e p s]; destruct h. py_cbn0. subst.
  unfold HBridge.drive_set, HBridge.peel_set, HBridge.log_call,
    HBridge.enabled, duties.
  py_cbn. split; eexists; repeat split.
Qed.

Lemma disabled_bridge_ignores_commands_witness :
  let m := Servo.init hbridge0 (encoder_at 0) default_args in
  _enabled (drives m) = false
  /\ exists m', HBridge.drive_set 250 m = (m', Val tt)
                /\ duties (drives m') = duties (drives m)
                /\ _enabled (drives m') = false.
Proof.
  intro m. split; [reflexivity|].
  exact (proj1 (disabled_bridge_ignores_commands 250 m eq_refl)).
Defined.

(** X4: on an enabled H-bridge, drive_set() and peel_set() with a speed
    outside -100..100 raise ValueError and write no PWM channel. *)
Theorem out_of_range_speed_raises (v : Q) (m : Machine) :
  _enabled (drives m) = true ->
  (v < -100 \/ 100 < v)%Q ->
  (exists m', HBridge.drive_set v m
              = (m', Exc (ValueError "Speed must be -100 to 100"))
              /\ duties (drives m') = duties (drives m))
  /\ (exists m', HBridge.peel_set v m
                 = (m', Exc (ValueError "Speed must be -100 to 100"))
                 /\ duties (drives m') = duties (drives m)).
Proof.
  intros Hen Hv. destruct m as [h e p s]; destruct h. py_cbn0. subst.
  assert (R : Qleb (-100) v && Qleb v 100 = false).
  { apply andb_false_iff. destruct Hv; [left|right]; apply Qleb_false; lra. }
  unfold HBridge.drive_set, HBridge.peel_set, HBridge.log_call,
    HBridge.enabled, duties.
  py_cbn. rewrite R. py_cbn. split; eexists; repeat split.
Qed.

Lemma out_of_range_speed_raises_witness :
  let m := fst (HBridge.enable true
                  (Servo.init hbridge0 (encoder_at 0) default_args)) in
  (_enabled (drives m) = true /\ (100 < 120)%Q)
  /\ exists m', HBridge.drive_set 120 m
                = (m', Exc (ValueError "Speed must be -100 to 100"))
                /\ duties (drives m') = duties (drives m).
Proof.
  intro m.
  assert (H1 : (100 < 120)%Q) by reflexivity.
  split; [split; [reflexivity|exact H1]|].
  exact (proj1 (out_of_range_speed_raises 120 m eq_refl (or_intror H1))).
Defined.


Lemma hbridge_init_ok (inv brake : bool) (dmin pmin : Q) (h : HBridgeT) :
  HBridge.init inv dmin pmin brake = Val h ->
  pwm_min_ok h /\ _enabled h = false /\ duties h = (0, 0, 0, 0).
Proof.
  unfold HBridge.init.
  destruct (Qleb 0 dmin && Qleb dmin 100 && Qleb 0 pmin && Qleb pmin 100)
    eqn:E; cbn [negb]; [|discriminate].
  intros [= <-]. props. unfold pwm_min_ok. py_cbn0. repeat split; assumption.
Qed.


(** X6: the duty cycle _set_motor_pwm() computes covers the range from the
    PWM minimum to full scale: with a PWM minimum within 0..100, speed 100
    gives 100 percent, every speed gives at least int(pwm_min), and a
    higher speed never gives a lower duty cycle. *)
Theorem actual_pwm_is_monotone (pwm_min s1 s2 : Q) :
  (0 <= pwm_min <= 100)%Q ->
  (0 <= s1)%Q -> (s1 <= s2)%Q -> (s2 <= 100)%Q ->
  HBridge.actual_pwm pwm_min s1 <= HBridge.actual_pwm pwm_min s2
  /\ py_int pwm_min <= HBridge.actual_pwm pwm_min s1
  /\ HBridge.actual_pwm pwm_min 100 = 100.
Proof.
  intros [H0 H1] Hs1 Hle Hs2.
  split; [|split; [apply actual_pwm_bounds; split; assumption|]].
  - unfold HBridge.actual_pwm. cbv zeta.
    apply py_int_mono; [minmax; lra|].
    destruct (Qleb 100 pwm_min) eqn:E100.
    + destruct (Qltb 0 s1) eqn:E1, (Qltb 0 s2) eqn:E2; props;
        try (minmax; lra).
    + apply Qleb_false in E100.
      assert (Eu : Qltb 0 (100 - pwm_min) = true) by (apply Qltb_true; lra).
      rewrite Eu.
      assert (Hm : (s1 / 100 * (100 - pwm_min)
                    <= s2 / 100 * (100 - pwm_min))%Q).
      { apply Qmult_le_compat_r; [|lra].
        apply Qmult_le_compat_r; [exact Hle|discriminate]. }
      minmax; lra.
  - unfold HBridge.actual_pwm. cbv zeta.
    transitivity (py_int 100); [|reflexivity].
    apply py_int_eq; [minmax; lra|].
    destruct (Qleb 100 pwm_min) eqn:E100.
    + props. cbn [Qltb Qle_bool negb]. minmax; lra.
    + apply Qleb_false in E100.
      assert (Eu : Qltb 0 (100 - pwm_min) = true) by (apply Qltb_true; lra).
      rewrite Eu.
      assert (Ex : (pwm_min + 100 / 100 * (100 - pwm_min) == 100)%Q)
        by (field).
      minmax; lra.
Qed.

Lemma actual_pwm_is_monotone_witness :
  ((0 <= 65 <= 100)%Q /\ (0 <= 20)%Q /\ (20 <= 50)%Q /\ (50 <= 100)%Q)
  /\ HBridge.actual_pwm 65 20 <= HBridge.actual_pwm 65 50
  /\ HBridge.actual_pwm 65 100 = 100.
Proof.
  assert (H0 : (0 <= 65 <= 100)%Q) by (split; discriminate).
  assert (H1 : (0 <= 20)%Q) by discriminate.
  assert (H2 : (20 <= 50)%Q) by discriminate.
  assert (H3 : (50 <= 100)%Q) by discriminate.
  split; [exact (conj H0 (conj H1 (conj H2 H3)))|].
  destruct (actual_pwm_is_monotone 65 20 50 H0 H1 H2 H3) as (Ha & _ & Hb).
  split; assumption.
Defined.

(** * The peel motor, beyond run() on a running motor *)

Lemma in_range (v : Q) :
  (0 <= v <= 100)%Q -> Qleb (-100) v && Qleb v 100 = true.
Proof.
  intros [H0 H1]. apply andb_true_iff. split; apply Qleb_true; lra.
Qed.

(** What _set_state(new_state, speed) does, for a speed peel_set()
    accepts. *)
Lemma set_state_effect (st : peel_state) (sp : Q) (m : Machine) :
  Qleb (-100) sp && Qleb sp 100 = true ->
  let p := peel_motor m in
  let skip := peel_state_eqb (_current_state p) st
              && negb (peel_state_eqb st STATE_STOPPED)
              && Qeq_bool (_current_actual_speed p) sp in
  exists m',
    PeelMotor._set_state st (Some sp) m = (m', Val tt)
    /\ self m' = self m /\ encoder m' = encoder m
    /\ _enabled (drives m') = _enabled (drives m)
    /\ if skip then m' = m
       else peel_motor m'
            = match st with
              | STATE_STOPPED => stopped_motor p
              | _ => set_current_actual_speed sp (set_current_state st p)
              end
            /\ calls (drives m')
               = calls (drives m) ++ [CallPeelSet (signed_speed st sp)].
Proof.
  intros R p skip. subst p skip.
  unfold PeelMotor._set_state, stopped_motor.
  destruct st; destruct (_current_state (peel_motor m)) eqn:Ecs; py_cbn;
    rewrite ?Ecs; py_cbn;
    try (destruct (Qeq_bool (_current_actual_speed (peel_motor m)) sp)
           eqn:Esp; py_cbn; rewrite ?Ecs, ?Esp; py_cbn);
    try (eexists; repeat split; reflexivity);
    exec_peel_set; destruct F; py_cbn;
    (eexists; split; [reflexivity|]); py_cbn; rewrite ?P, ?C; py_cbn;
    repeat split; auto.
Qed.

(** The three things run() can do: reject the call, stop at once, or run. *)
Lemma run_cases (d : Z) (t : option Z) (speed : option Q) (now : Z)
    (m : Machine) :
  (0 <= run_speed speed m <= 100)%Q ->
  exists m',
    PeelMotor.run d t speed now m = (m', Val tt)
    /\ self m' = self m /\ encoder m' = encoder m
    /\ _enabled (drives m') = _enabled (drives m)
    /\ (((PeelMotor.state_map d = None \/ run_time t m < 0) /\ m' = m)
        \/ ((exists ds, PeelMotor.state_map d = Some ds
                        /\ (ds = STATE_STOPPED \/ run_time t m = 0))
            /\ 0 <= run_time t m
            /\ peel_motor m' = stopped_motor (peel_motor m)
            /\ calls (drives m') = calls (drives m) ++ [CallPeelSet 0])
        \/ (exists ds,
              PeelMotor.state_map d = Some ds /\ ds <> STATE_STOPPED
              /\ 0 < run_time t m
              /\ _current_state (peel_motor m') = ds
              /\ _run_start_time_ms (peel_motor m') = now
              /\ _target_run_time_ms (peel_motor m') = run_time t m
              /\ default_speed (peel_motor m') = default_speed (peel_motor m)
              /\ default_time_ms (peel_motor m')
                 = default_time_ms (peel_motor m)
              /\ ((_current_actual_speed (peel_motor m') = run_speed speed m
                   /\ calls (drives m')
                      = calls (drives m)
                        ++ [CallPeelSet (signed_speed ds (run_speed speed m))])
                  \/ (_current_state (peel_motor m) = ds
                      /\ _current_actual_speed (peel_motor m')
                         = _current_actual_speed (peel_motor m)
                      /\ (_current_actual_speed (peel_motor m)
                          == run_speed speed m)%Q
                      /\ calls (drives m') = calls (drives m))))).
Proof.
  intros Hsp. unfold run_time, run_speed in *.
  pose proof (in_range _ Hsp) as R.
  unfold PeelMotor.run.
  destruct (PeelMotor.state_map d) as [ds|] eqn:Emap;
    [|eexists; repeat split; left; split; [left|]; reflexivity].
  py_cbn.
  set (rt := match t with Some t0 => t0 | None => _ end) in *.
  set (sp := match speed with Some s => _ | None => _ end) in *.
  destruct (rt <? 0) eqn:Eneg.
  { apply Z.ltb_lt in Eneg.
    eexists; repeat split; left; split; [right; exact Eneg|reflexivity]. }
  apply Z.ltb_ge in Eneg.
  destruct (peel_state_eqb ds STATE_STOPPED
            || (rt =? 0) && negb (peel_state_eqb ds STATE_STOPPED)) eqn:Estop.
  { destruct (stop_state 0 m) as (m' & E & Hp & Hc & Hs & He & Hen).
    py_cbn. rewrite E.
    exists m'. repeat split; try assumption.
    right; left. repeat split; try assumption.
    exists ds. split; [reflexivity|].
    destruct ds; cbn in Estop; [left; reflexivity| |];
      right; props; assumption. }
  assert (Hne : ds <> STATE_STOPPED)
    by (intros ->; cbn in Estop; discriminate).
  assert (Hpos : 0 < rt).
  { destruct ds; [congruence| |]; cbn in Estop;
      rewrite andb_true_r in Estop; props; lia. }
  assert (Hst : peel_state_eqb ds STATE_STOPPED = false)
    by (destruct ds; [congruence|reflexivity|reflexivity]).
  pose proof (set_state_effect ds sp m R) as Heff. cbv zeta in Heff.
  destruct Heff as (m' & E & Hs & He & Hen & Heff).
  rewrite Hst in Heff. cbn [negb] in Heff.
  rewrite andb_true_r in Heff.
  destruct (peel_state_eqb (_current_state (peel_motor m)) ds) eqn:Ecur.
  - assert (Hcur : _current_state (peel_motor m) = ds)
      by (destruct (_current_state (peel_motor m)), ds;
          try discriminate; reflexivity).
    destruct (Qeq_bool (_current_actual_speed (peel_motor m)) sp) eqn:Esp.
    + (* same state and speed: only the timer *)
      cbn [andb] in Heff. subst m'.
      py_cbn. fold sp. rewrite Ecur, Hcur, Hst, Esp. py_cbn.
      eexists; split; [reflexivity|]. py_cbn. repeat split.
      right; right. exists ds. repeat split; try assumption.
      right. repeat split; try assumption.
      apply Qeq_bool_iff, Esp.
    + cbn [andb] in Heff. destruct Heff as [Hp Hc].
      py_cbn. fold sp. rewrite Ecur, Hcur, Hst, Esp. py_cbn.
      rewrite (bind_eq _ _ m m' _ E). py_cbn.
      eexists; split; [reflexivity|]. py_cbn. rewrite Hp.
      repeat split; try assumption.
      right; right. exists ds.
      destruct ds; [congruence| |]; py_cbn; repeat split; try assumption;
        (left; split; [reflexivity|assumption]).
  - cbn [andb] in Heff. destruct Heff as [Hp Hc].
    py_cbn. fold sp. rewrite Ecur. py_cbn.
    rewrite (bind_eq _ _ m m' _ E). py_cbn.
    eexists; split; [reflexivity|]. py_cbn. rewrite Hp.
    repeat split; try assumption.
    right; right. exists ds.
    destruct ds; [congruence| |]; py_cbn; repeat split; try assumption;
      (left; split; [reflexivity|assumption]).
Qed.

Lemma run_speed_range (speed : option Q) (m : Machine) :
  (0 <= default_speed (peel_motor m) <= 100)%Q ->
  (0 <= run_speed speed m <= 100)%Q.
Proof.
  intro H. unfold run_speed. destruct speed as [s|]; [|exact H].
  pose proof (Qabs_nonneg s). minmax; split; lra.
Qed.

(** What update() does: nothing, or the stop of an expired run. *)
Lemma update_cases (now : Z) (m : Machine) :
  exists m',
    PeelMotor.update now m = (m', Val tt)
    /\ self m' = self m /\ encoder m' = encoder m
    /\ _enabled (drives m') = _enabled (drives m)
    /\ if negb (peel_state_eqb (_current_state (peel_motor m)) STATE_STOPPED)
                 && (0 <? _target_run_time_ms (peel_motor m))
                 && (_target_run_time_ms (peel_motor m)
                     <=? ticks_diff now (_run_start_time_ms (peel_motor m)))
       then peel_motor m' = stopped_motor (peel_motor m)
            /\ calls (drives m') = calls (drives m) ++ [CallPeelSet 0]
       else m' = m.
Proof.
  unfold PeelMotor.update. py_cbn.
  destruct (peel_state_eqb (_current_state (peel_motor m)) STATE_STOPPED);
    py_cbn; [eexists; repeat split|].
  rewrite Z.ltb_antisym.
  destruct (_target_run_time_ms (peel_motor m) <=? 0); py_cbn;
    [eexists; repeat split|].
  destruct (_target_run_time_ms (peel_motor m)
            <=? ticks_diff now (_run_start_time_ms (peel_motor m))); py_cbn;
    [|eexists; repeat split].
  destruct (stop_state 0 m) as (m' & E & Hp & Hc & Hs & He & Hen).
  exists m'. repeat split; assumption.
Qed.

(** X7: a run of t ms (t > 0, direction 1 or -1, at a speed within 0..100,
    which an explicit speed always is after clamping) followed by update():
    while less than t ms have elapsed since the run() call, update() changes
    nothing and the motor is still running; once t ms have elapsed it stops
    the motor (state STOPPED, speed and timer zeroed) with one peel_set(0). *)
Theorem run_expires_after_its_time (d : Z) (t : option Z) (speed : option Q)
    (now now' : Z) (m : Machine) :
  (0 <= run_speed speed m <= 100)%Q ->
  d = 1 \/ d = -1 ->
  0 < run_time t m ->
  exists m1 m2,
    PeelMotor.run d t speed now m = (m1, Val tt)
    /\ PeelMotor.update now' m1 = (m2, Val tt)
    /\ _current_state (peel_motor m1) <> STATE_STOPPED
    /\ if run_time t m <=? ticks_diff now' now
       then peel_motor m2 = stopped_motor (peel_motor m)
            /\ calls (drives m2) = calls (drives m1) ++ [CallPeelSet 0]
       else m2 = m1.
Proof.
  intros Hsp Hd Ht.
  destruct (run_cases d t speed now m Hsp)
    as (m1 & E1 & _ & _ & _ & [[[Hbad|Hbad] _]|[(Hbad & _)|Hrun]]).
  - destruct Hd; subst d; discriminate.
  - lia.
  - destruct Hbad as (ds & Hmap & [->|Hz]); [|lia].
    destruct Hd; subst d; discriminate.
  - destruct Hrun as (ds & Hmap & Hne & _ & Hst & Hstart & Htg & Hds & Hdt & _).
    destruct (update_cases now' m1) as (m2 & E2 & _ & _ & _ & Hup).
    exists m1, m2. rewrite Hst. repeat split; try assumption.
    rewrite Hst, Htg, Hstart in Hup.
    assert (Hb : peel_state_eqb ds STATE_STOPPED = false)
      by (destruct ds; [congruence|reflexivity|reflexivity]).
    rewrite Hb in Hup. cbn [negb andb] in Hup.
    assert (Hp : (0 <? run_time t m) = true) by (apply Z.ltb_lt; exact Ht).
    rewrite Hp in Hup. cbn [andb] in Hup.
    destruct (run_time t m <=? ticks_diff now' now); [|exact Hup].
    destruct Hup as [Hm Hc]. split; [|exact Hc].
    rewrite Hm. unfold stopped_motor. rewrite Hds, Hdt. reflexivity.
Qed.

Lemma run_expires_after_its_time_witness :
  let m := peel_running in
  ((0 <= run_speed (Some 50%Q) m <= 100)%Q /\ (-1 = 1 \/ -1 = -1)
   /\ 0 < run_time (Some 300) m)
  /\ exists m1 m2,
       PeelMotor.run (-1) (Some 300) (Some 50%Q) 400 m = (m1, Val tt)
       /\ PeelMotor.update 700 m1 = (m2, Val tt)
       /\ _current_state (peel_motor m1) <> STATE_STOPPED
       /\ if run_time (Some 300) m <=? ticks_diff 700 400
          then peel_motor m2 = stopped_motor (peel_motor m)
               /\ calls (drives m2) = calls (drives m1) ++ [CallPeelSet 0]
          else m2 = m1.
Proof.
  intro m.
  assert (H1 : (0 <= run_speed (Some 50%Q) m <= 100)%Q)
    by (vm_compute; split; discriminate).
  assert (H2 : -1 = 1 \/ -1 = -1) by (right; reflexivity).
  assert (H3 : 0 < run_time (Some 300) m) by reflexivity.
  split; [exact (conj H1 (conj H2 H3))|].
  exact (run_expires_after_its_time (-1) (Some 300) (Some 50%Q) 400 700 m
           H1 H2 H3).
Defined.

Lemma last_peel_cmd (l : list hw_call) (v d : Q) :
  last (peel_cmds (l ++ [CallPeelSet v])) d = v.
Proof.
  unfold peel_cmds. rewrite flat_map_app. cbn [flat_map app].
  apply last_last.
Qed.

(** One call of a client keeps the invariant of the sequencer and its
    agreement with the H-bridge. *)
Lemma peel_call_keeps (c : peel_call) (m : Machine) :
  (0 <= default_speed (peel_motor m) <= 100)%Q ->
  peel_inv (peel_motor m) ->
  peel_in_sync m ->
  exists m',
    peel_call_cmd c m = (m', Val tt)
    /\ default_speed (peel_motor m') = default_speed (peel_motor m)
    /\ peel_inv (peel_motor m')
    /\ peel_in_sync m'.
Proof.
  intros Hd Hinv Hsync. destruct c as [d t speed now|now]; cbn [peel_call_cmd].
  - pose proof (run_speed_range speed m Hd) as Hsp.
    destruct (run_cases d t speed now m Hsp)
      as (m' & E & _ & _ & _ & [[_ ->]|[(_ & _ & Hp & Hc)|Hrun]]).
    + exists m. auto.
    + exists m'. split; [exact E|]. unfold peel_inv, peel_in_sync.
      rewrite Hp, Hc, last_peel_cmd. unfold stopped_motor. py_cbn0. auto.
    + destruct Hrun as (ds & _ & Hne & Hpos & Hst & _ & Htg & Hds & _ & Hor).
      exists m'. split; [exact E|]. split; [exact Hds|].
      unfold peel_inv, peel_in_sync in *. rewrite Hst, Htg.
      destruct Hor as [[Hv Hc]|(Hcur & Hv & Heq & Hc)].
      * rewrite Hv, Hc, last_peel_cmd.
        destruct ds; [congruence| |]; auto.
      * rewrite Hv, Hc, Hsync, Hcur.
        rewrite Hcur in Hinv.
        destruct ds; [congruence| |]; split; try reflexivity;
          (split; [exact Hpos|apply Hinv]).
  - destruct (update_cases now m) as (m' & E & _ & _ & _ & Hup).
    exists m'. split; [exact E|].
    destruct (negb _ && _ && _); [|subst m'; auto].
    destruct Hup as [Hp Hc]. unfold peel_inv, peel_in_sync.
    rewrite Hp, Hc, last_peel_cmd. unfold stopped_motor. py_cbn0. auto.
Qed.

Lemma peel_script_keeps (cs : list peel_call) : forall m : Machine,
  (0 <= default_speed (peel_motor m) <= 100)%Q ->
  peel_inv (peel_motor m) ->
  peel_in_sync m ->
  exists m',
    peel_script cs m = (m', Val tt)
    /\ peel_inv (peel_motor m')
    /\ peel_in_sync m'.
Proof.
  induction cs as [|c cs IH]; intros m Hd Hinv Hsync; cbn [peel_script].
  - exists m. auto.
  - destruct (peel_call_keeps c m Hd Hinv Hsync) as (m1 & E & Hd1 & Hi1 & Hs1).
    rewrite (bind_eq _ _ m m1 _ E).
    apply IH; [rewrite Hd1; exact Hd|exact Hi1|exact Hs1].
Qed.

(** X8: on a peel motor whose default speed is within 0..100, any sequence
    of run() and update() calls, with any arguments, returns without an
    exception and keeps the sequencer consistent: stopped means speed and
    timer at zero, running means a positive run time and a speed within
    0..100. *)
Theorem peel_calls_keep_state_consistent (cs : list peel_call)
    (m : Machine) :
  (0 <= default_speed (peel_motor m) <= 100)%Q ->
  peel_inv (peel_motor m) ->
  peel_in_sync m ->
  exists m', peel_script cs m = (m', Val tt) /\ peel_inv (peel_motor m').
Proof.
  intros Hd Hinv Hsync.
  destruct (peel_script_keeps cs m Hd Hinv Hsync) as (m' & E & Hi & _).
  exists m'. auto.
Qed.

Lemma peel_calls_keep_state_consistent_witness :
  let m := Servo.init hbridge0 (encoder_at 0) default_args in
  let cs := [PeelRun 1 None None 10; PeelUpdate 500; PeelRun 7 None None 600;
             PeelRun (-1) (Some 200) (Some (-250)%Q) 700; PeelUpdate 950;
             PeelRun 1 (Some (-5)) None 960] in
  ((0 <= default_speed (peel_motor m) <= 100)%Q
   /\ peel_inv (peel_motor m) /\ peel_in_sync m)
  /\ exists m', peel_script cs m = (m', Val tt) /\ peel_inv (peel_motor m').
Proof.
  intros m cs.
  assert (H1 : (0 <= default_speed (peel_motor m) <= 100)%Q)
    by (vm_compute; split; discriminate).
  assert (H2 : peel_inv (peel_motor m)) by (vm_compute; auto).
  assert (H3 : peel_in_sync m) by reflexivity.
  split; [exact (conj H1 (conj H2 H3))|].
  exact (peel_calls_keep_state_consistent cs m H1 H2 H3).
Defined.

(** X9: the sequencer never loses track of the motor: after any sequence
    of run() and update() calls on a peel motor whose default speed is
    within 0..100, the last speed given to peel_set() is the one of the
    current state (the speed when running forward, its negative when
    running in reverse, 0 when stopped). *)
Theorem peel_state_follows_last_command (cs : list peel_call)
    (m : Machine) :
  (0 <= default_speed (peel_motor m) <= 100)%Q ->
  peel_inv (peel_motor m) ->
  peel_in_sync m ->
  exists m', peel_script cs m = (m', Val tt) /\ peel_in_sync m'.
Proof.
  intros Hd Hinv Hsync.
  destruct (peel_script_keeps cs m Hd Hinv Hsync) as (m' & E & _ & Hs).
  exists m'. auto.
Qed.

Lemma peel_state_follows_last_command_witness :
  let m := Servo.init hbridge0 (encoder_at 0) default_args in
  let cs := [PeelRun (-1) (Some 200) (Some 40%Q) 10; PeelUpdate 100;
             PeelRun 1 (Some 200) (Some 40%Q) 150] in
  ((0 <= default_speed (peel_motor m) <= 100)%Q
   /\ peel_inv (peel_motor m) /\ peel_in_sync m)
  /\ exists m', peel_script cs m = (m', Val tt) /\ peel_in_sync m'.
Proof.
  intros m cs.
  assert (H1 : (0 <= default_speed (peel_motor m) <= 100)%Q)
    by (vm_compute; split; discriminate).
  assert (H2 : peel_inv (peel_motor m)) by (vm_compute; auto).
  assert (H3 : peel_in_sync m) by reflexivity.
  split; [exact (conj H1 (conj H2 H3))|].
  exact (peel_state_follows_last_command cs m H1 H2 H3).
Defined.

(** X10: get_state() reads back what run() was asked for: after
    run(direction, time_ms, speed) with direction in {-1, 0, 1}, a run
    time of at least 0 and a speed within 0..100 (which an explicit speed
    always is after clamping), get_state() returns the direction when the run time
    is positive and 0 when it is 0, and is_idle() is true exactly when
    get_state() returns 0. *)
Theorem get_state_reads_back_run (d : Z) (t : option Z) (speed : option Q)
    (now : Z) (m : Machine) :
  (0 <= run_speed speed m <= 100)%Q ->
  d = -1 \/ d = 0 \/ d = 1 ->
  0 <= run_time t m ->
  exists m',
    PeelMotor.run d t speed now m = (m', Val tt)
    /\ PeelMotor.get_state m'
       = (m', Val (if run_time t m =? 0 then 0 else d))
    /\ PeelMotor.is_idle m'
       = (m', Val ((run_time t m =? 0) || (d =? 0))).
Proof.
  intros Hsp Hd Ht.
  destruct (run_cases d t speed now m Hsp)
    as (m' & E & _ & _ & _ & [[[Hbad|Hbad] _]|[(Hex & _ & Hp & _)|Hrun]]).
  - destruct Hd as [->|[->| ->]]; discriminate.
  - lia.
  - exists m'. split; [exact E|].
    unfold PeelMotor.get_state, PeelMotor.is_idle, gets.
    rewrite Hp. unfold stopped_motor. py_cbn0.
    destruct Hex as (ds & Hmap & [->|Hz]).
    + assert (d = 0) as ->
        by (destruct Hd as [->|[->| ->]]; [discriminate|reflexivity|discriminate]).
      rewrite orb_true_r. destruct (run_time t m =? 0); auto.
    + rewrite Hz. auto.
  - destruct Hrun as (ds & Hmap & Hne & Hpos & Hst & _).
    exists m'. split; [exact E|].
    unfold PeelMotor.get_state, PeelMotor.is_idle, gets. rewrite Hst.
    assert (Hz : (run_time t m =? 0) = false) by (apply Z.eqb_neq; lia).
    rewrite Hz.
    destruct Hd as [->|[->| ->]]; cbn in Hmap; injection Hmap as <-;
      [|congruence|]; auto.
Qed.

Lemma get_state_reads_back_run_witness :
  let m := peel_running in
  ((0 <= run_speed None m <= 100)%Q /\ (-1 = -1 \/ -1 = 0 \/ -1 = 1)
   /\ 0 <= run_time None m)
  /\ exists m',
       PeelMotor.run (-1) None None 20 m = (m', Val tt)
       /\ PeelMotor.get_state m'
          = (m', Val (if run_time None m =? 0 then 0 else -1))
       /\ PeelMotor.is_idle m'
          = (m', Val ((run_time None m =? 0) || (-1 =? 0))).
Proof.
  intro m.
  assert (H1 : (0 <= run_speed None m <= 100)%Q)
    by (vm_compute; split; discriminate).
  assert (H2 : -1 = -1 \/ -1 = 0 \/ -1 = 1) by (left; reflexivity).
  assert (H3 : 0 <= run_time None m) by (vm_compute; discriminate).
  split; [exact (conj H1 (conj H2 H3))|].
  exact (get_state_reads_back_run (-1) None None 20 m H1 H2 H3).
Defined.

(** X11: run() with a direction outside {-1, 0, 1} or with a negative run
    time is ignored: it raises nothing, sends no command and leaves a
    running motor running with its timer as it was. *)
Theorem run_ignores_invalid_arguments (d : Z) (t : option Z)
    (speed : option Q) (now : Z) (m : Machine) :
  (d <> -1 /\ d <> 0 /\ d <> 1) \/ run_time t m < 0 ->
  PeelMotor.run d t speed now m = (m, Val tt).
Proof.
  intros H. unfold PeelMotor.run, run_time in *.
  destruct (PeelMotor.state_map d) as [ds|] eqn:Emap; [|reflexivity].
  py_cbn.
  destruct H as [(H1 & H2 & H3)|H].
  - unfold PeelMotor.state_map in Emap.
    destruct (Z.eqb_spec d 0); [contradiction|].
    destruct (Z.eqb_spec d 1); [contradiction|].
    destruct (Z.eqb_spec d (-1)); [contradiction|discriminate].
  - apply Z.ltb_lt in H. rewrite H. reflexivity.
Qed.

Lemma run_ignores_invalid_arguments_witness :
  let m := peel_running in
  ((2 <> -1 /\ 2 <> 0 /\ 2 <> 1) \/ run_time None m < 0)
  /\ PeelMotor.run 2 None None 300 m = (m, Val tt).
Proof.
  intro m.
  assert (H : (2 <> -1 /\ 2 <> 0 /\ 2 <> 1) \/ run_time None m < 0)
    by (left; repeat split; discriminate).
  split; [exact H|].
  exact (run_ignores_invalid_arguments 2 None None 300 m H).
Defined.

(** X12: the constructor takes any default speed (only its sign is dropped),
    but the H-bridge does not: on an enabled H-bridge, run() at the default
    speed of a peel motor whose default speed is above 100, called while the
    motor is stopped, raises ValueError out of peel_set() after the state
    and the speed have been recorded; no PWM channel is written and the
    timer is not started, yet is_idle() is false from then on. *)
Theorem default_speed_above_100_raises (d : Z) (t : option Z) (now : Z)
    (m : Machine) :
  _enabled (drives m) = true ->
  (100 < default_speed (peel_motor m))%Q ->
  _current_state (peel_motor m) = STATE_STOPPED ->
  d = 1 \/ d = -1 ->
  0 < run_time t m ->
  exists m',
    PeelMotor.run d t None now m
    = (m', Exc (ValueError "Speed must be -100 to 100"))
    /\ PeelMotor.is_idle m' = (m', Val false)
    /\ _current_actual_speed (peel_motor m') = default_speed (peel_motor m)
    /\ _run_start_time_ms (peel_motor m') = _run_start_time_ms (peel_motor m)
    /\ _target_run_time_ms (peel_motor m')
       = _target_run_time_ms (peel_motor m)
    /\ duties (drives m') = duties (drives m).
Proof.
  intros Hen Hsp Hcur Hd Ht. unfold run_time in Ht.
  destruct m as [h e p s]. destruct p as [dsp dtm cs tg t0 sp0].
  destruct h as [en br dmin pmin inv pin p1 p2 d1 d2 cl].
  py_cbn0. subst en cs.
  assert (R1 : Qleb (-100) dsp && Qleb dsp 100 = false).
  { apply andb_false_iff. right. apply Qleb_false. exact Hsp. }
  assert (R2 : Qleb (-100) (- dsp) && Qleb (- dsp) 100 = false).
  { apply andb_false_iff. left. apply Qleb_false. lra. }
  set (rt := match t with Some t1 => t1 | None => dtm end) in *.
  assert (Hneg : (rt <? 0) = false) by (apply Z.ltb_ge; lia).
  assert (Hz : (rt =? 0) = false) by (apply Z.eqb_neq; lia).
  unfold PeelMotor.run, PeelMotor._set_state, HBridge.peel_set,
    HBridge.log_call, HBridge.enabled, PeelMotor.is_idle, duties.
  destruct Hd; subst d;
    [change (PeelMotor.state_map 1) with (Some STATE_FORWARD)
    |change (PeelMotor.state_map (-1)) with (Some STATE_REVERSE)];
    py_cbn; fold rt; rewrite Hneg; py_cbn; rewrite Hz; py_cbn;
    rewrite ?R1, ?R2; py_cbn;
    eexists; (split; [reflexivity|]); py_cbn; repeat split.
Qed.

Lemma default_speed_above_100_raises_witness :
  let m := set_peel_motor (PeelMotor.init 150 1000)
             (fst (HBridge.enable true
                     (Servo.init hbridge0 (encoder_at 0) default_args))) in
  (_enabled (drives m) = true /\ (100 < default_speed (peel_motor m))%Q
   /\ _current_state (peel_motor m) = STATE_STOPPED
   /\ (1 = 1 \/ 1 = -1) /\ 0 < run_time None m)
  /\ exists m',
       PeelMotor.run 1 None None 50 m
       = (m', Exc (ValueError "Speed must be -100 to 100"))
       /\ PeelMotor.is_idle m' = (m', Val false)
       /\ _current_actual_speed (peel_motor m') = default_speed (peel_motor m)
       /\ _run_start_time_ms (peel_motor m')
          = _run_start_time_ms (peel_motor m)
       /\ _target_run_time_ms (peel_motor m')
          = _target_run_time_ms (peel_motor m)
       /\ duties (drives m') = duties (drives m).
Proof.
  intro m.
  assert (H1 : _enabled (drives m) = true) by reflexivity.
  assert (H2 : (100 < default_speed (peel_motor m))%Q) by reflexivity.
  assert (H3 : _current_state (peel_motor m) = STATE_STOPPED) by reflexivity.
  assert (H4 : 1 = 1 \/ 1 = -1) by (left; reflexivity).
  assert (H5 : 0 < run_time None m) by reflexivity.
  split; [exact (conj H1 (conj H2 (conj H3 (conj H4 H5))))|].
  exact (default_speed_above_100_raises 1 None 50 m H1 H2 H3 H4 H5).
Defined.

(** * The phases of a move *)

(** update, line 305: the clamped output is a speed drive_set() accepts. *)
Lemma clamp_range (out b : Q) :
  (0 <= b <= 100)%Q ->
  Qleb (-100) (pymax (pymin out b) (- b))
  && Qleb (pymax (pymin out b) (- b)) 100 = true.
Proof.
  intros [H0 H1]. apply andb_true_iff.
  split; apply Qleb_true; minmax; lra.
Qed.

(** One update() from a consistent state. *)
Lemma update_run (io : TickIO) (m : Machine) :
  phase_ok (self m) -> heading_ok (self m) ->
  exists m' r,
    Servo.update io m = (m', r)
    /\ phase_ok (self m') /\ heading_ok (self m')
    /\ config_of (self m') = config_of (self m)
    /\ _original_setpoint (self m') = _original_setpoint (self m)
    /\ _enabled (drives m') = _enabled (drives m)
    /\ ((0 <= max_output (self m) <= 100)%Q ->
        exists b, r = Val b
          /\ (_enabled (drives m) = true ->
              b = negb (_target_reached (self m')
                        && negb (_waiting_for_peel_idle_phase1 (self m'))))).
Proof.
  intros Hp Hh. unfold_servo.
  exec; do 2 eexists; (split; [reflexivity|]); norm; py_cbn; norm;
    unfold phase_ok, heading_ok, config_of in *; py_cbn0; norm;
    (split; [|split; [|split; [reflexivity|split; [reflexivity|split]]]]).
  (* the flags *)
  all: try (destruct Hp as [(A & B & C)|[(A & B & C)|(A & B & C)]];
            first [ left; repeat split; congruence
                  | right; left; repeat split; congruence
                  | right; right; repeat split; congruence
                  | congruence ]; fail).
  (* the enable state *)
  all: try (first [reflexivity|assumption]; fail).
  (* the setpoint *)
  all: try (let R := fresh "R" in
            intro R;
            first [ discriminate R | reflexivity
                  | repeat match goal with
                           | E : ?x = ?v |- _ =>
                               match type of Hh with
                               | context [x] => rewrite E in Hh
                               end
                           end;
                    exact (Hh eq_refl) ]; fail).
  (* the result *)
  all: try (let Hm := fresh "Hm" in
            intro Hm;
            try match goal with
                | H : _ -> Exc _ = Val _ |- _ =>
                    first [ discriminate (H range_zero)
                          | discriminate (H (clamp_range _ _ Hm)) ]
                end;
            eexists; (split; [reflexivity|]);
            let Hen := fresh "Hen" in
            intro Hen;
            first [ reflexivity | congruence
                  | destruct Hp as [(A & B & C)|[(A & B & C)|(A & B & C)]];
                    congruence ]; fail).
Qed.

(** Each call of a client keeps the flags and the setpoint consistent and
    the configuration as it is. *)
Lemma call_keeps_phase (c : servo_call) (m : Machine) :
  phase_ok (self m) -> heading_ok (self m) ->
  phase_ok (self (do_call c m)) /\ heading_ok (self (do_call c m))
  /\ config_of (self (do_call c m)) = config_of (self m).
Proof.
  intros Hp Hh.
  destruct c as [t io|io| |b]; cbn [do_call]; [| | |destruct b].
  2: { destruct (update_run io m Hp Hh) as (m' & r & E & H1 & H2 & H3 & _).
       rewrite E. cbn [fst]. auto. }
  all: unfold_servo; exec; cbn [fst snd]; norm; py_cbn; norm;
    unfold phase_ok, heading_ok, config_of in *; py_cbn0; norm;
    (split; [|split; [|reflexivity]]).
  all: repeat match goal with
              | |- context [?a <? ?b] =>
                  let E := fresh "E" in
                  destruct (a <? b) eqn:E; try (props; lia)
              end.
  all: try (destruct Hp as [(A & B & C)|[(A & B & C)|(A & B & C)]];
            first [ left; repeat split; congruence
                  | right; left; repeat split; congruence
                  | right; right; repeat split; congruence
                  | congruence ]; fail).
  all: try (let R := fresh "R" in
            intro R;
            first [ discriminate R | reflexivity
                  | repeat match goal with
                           | E : ?x = ?v |- _ =>
                               match type of Hh with
                               | context [x] => rewrite E in Hh
                               end
                           end;
                    exact (Hh eq_refl) ]; fail).
Qed.

Lemma calls_keep_phase (cs : list servo_call) : forall m : Machine,
  phase_ok (self m) -> heading_ok (self m) ->
  phase_ok (self (do_calls cs m)) /\ heading_ok (self (do_calls cs m))
  /\ config_of (self (do_calls cs m)) = config_of (self m).
Proof.
  unfold do_calls.
  induction cs as [|c cs IH]; intros m Hp Hh; [auto|].
  cbn [fold_left].
  destruct (call_keeps_phase c m Hp Hh) as (Hp1 & Hh1 & Hc1).
  destruct (IH _ Hp1 Hh1) as (Hp2 & Hh2 & Hc2).
  repeat split; try assumption. congruence.
Qed.

Lemma init_phase (d : HBridgeT) (e : EncoderT) (a : ServoArgs) :
  phase_ok (self (Servo.init d e a)) /\ heading_ok (self (Servo.init d e a)).
Proof.
  split; [left; repeat split|intro H; discriminate H].
Qed.

(** X13: after construction and any sequence of set_target(), update(),
    stop() and enable() calls, the three flags of the controller encode one
    phase: idle (target reached, not waiting, no backlash compensation
    pending), the forward leg (not reached, not waiting, moving forward) or
    the reverse leg (not reached, backlash compensation active, moving
    backward). *)
Theorem phase_flags_stay_consistent (d : HBridgeT) (e : EncoderT)
    (a : ServoArgs) (cs : list servo_call) :
  phase_ok (self (do_calls cs (Servo.init d e a))).
Proof.
  destruct (init_phase d e a) as [Hp Hh].
  exact (proj1 (calls_keep_phase cs _ Hp Hh)).
Qed.

(** X14: after construction and any sequence of set_target(), update(),
    stop() and enable() calls, while the target is not reached the setpoint
    is the requested target when the controller moves forward and the
    requested target minus (ramp_ticks + backlash_takeup) when it moves
    backward. *)
Theorem setpoint_follows_the_target (d : HBridgeT) (e : EncoderT)
    (a : ServoArgs) (cs : list servo_call) :
  heading_ok (self (do_calls cs (Servo.init d e a))).
Proof.
  destruct (init_phase d e a) as [Hp Hh].
  exact (proj1 (proj2 (calls_keep_phase cs _ Hp Hh))).
Qed.

(** X15: set_target(), update(), stop() and enable() never write the
    configuration: after any sequence of them the gains, the output limits,
    backlash_takeup, tolerance, ramp_ticks, stable_updates, the ramp taper
    and the peel settings are the values the constructor stored. *)
Theorem configuration_is_fixed (d : HBridgeT) (e : EncoderT)
    (a : ServoArgs) (cs : list servo_call) :
  config_of (self (do_calls cs (Servo.init d e a)))
  = (arg_Kp a, arg_Ki a, arg_Kd a, Qabs (arg_max_output a),
     Qabs (arg_min_output a), Z.abs (arg_backlash_takeup a),
     Z.abs (arg_tolerance a), Z.abs (arg_ramp_ticks a), arg_stable_updates a,
     pymax 0 (pymin 100 (arg_ramp_taper_percent a)),
     arg_peel_enable a, arg_peel_speed a, arg_peel_time_ms a).
Proof.
  destruct (init_phase d e a) as [Hp Hh].
  rewrite (proj2 (proj2 (calls_keep_phase cs _ Hp Hh))). reflexivity.
Qed.

(** X16: after construction with |max_output| <= 100 and any sequence of
    set_target(), update(), stop() and enable() calls, update() raises
    nothing, and on an enabled H-bridge it returns True exactly when the
    move is still in progress afterwards: its result is the negation of
    is_target_reached. *)
Theorem update_reports_progress (d : HBridgeT) (e : EncoderT)
    (a : ServoArgs) (cs : list servo_call) (io : TickIO) :
  (Qabs (arg_max_output a) <= 100)%Q ->
  let m := do_calls cs (Servo.init d e a) in
  exists m' b,
    Servo.update io m = (m', Val b)
    /\ (_enabled (drives m) = true ->
        Servo.is_target_reached m' = (m', Val (negb b))).
Proof.
  intros Hmax m.
  destruct (init_phase d e a) as [Hp Hh].
  destruct (calls_keep_phase cs _ Hp Hh) as (Hp1 & Hh1 & Hc1).
  fold m in Hp1, Hh1, Hc1.
  destruct (update_run io m Hp1 Hh1) as (m' & r & E & _ & _ & _ & _ & _ & Hr).
  assert (Hm : (0 <= max_output (self m) <= 100)%Q).
  { assert (Hx : max_output (self m) = Qabs (arg_max_output a)).
    { unfold config_of in Hc1. injection Hc1 as _ _ _ Hx. exact Hx. }
    rewrite Hx. split; [apply Qabs_nonneg|exact Hmax]. }
  destruct (Hr Hm) as (b & -> & Hb).
  exists m', b. split; [exact E|].
  intro Hen. unfold Servo.is_target_reached, gets.
  rewrite (Hb Hen), negb_involutive. reflexivity.
Qed.

Lemma update_reports_progress_witness :
  let cs := [DoSetTarget 100 (set_target_at 10 0); DoUpdate (tick_at 30 0)] in
  let m := do_calls cs (Servo.init hbridge0 (encoder_at 0) default_args) in
  (Qabs (arg_max_output default_args) <= 100)%Q
  /\ exists m' b,
       Servo.update (tick_at 50 40) m = (m', Val b)
       /\ (_enabled (drives m) = true ->
           Servo.is_target_reached m' = (m', Val (negb b))).
Proof.
  intros cs m.
  assert (H : (Qabs (arg_max_output default_args) <= 100)%Q)
    by (vm_compute; discriminate).
  split; [exact H|].
  exact (update_reports_progress hbridge0 (encoder_at 0) default_args cs
           (tick_at 50 40) H).
Defined.

(** What self.peel_motor.run(0) does when the default run time is not
    negative. *)
Lemma peel_stop_run (m : Machine) :
  0 <= default_time_ms (peel_motor m) ->
  exists m',
    Servo.peel_stop m = (m', Val tt)
    /\ peel_motor m' = stopped_motor (peel_motor m)
    /\ calls (drives m') = calls (drives m) ++ [CallPeelSet 0]
    /\ self m' = self m /\ encoder m' = encoder m
    /\ _enabled (drives m') = _enabled (drives m).
Proof.
  intro Ht. unfold Servo.peel_stop, PeelMotor.run.
  change (PeelMotor.state_map 0) with (Some STATE_STOPPED). py_cbn.
  assert (E : (default_time_ms (peel_motor m) <? 0) = false)
    by (apply Z.ltb_ge; exact Ht).
  rewrite E. py_cbn. apply stop_state.
Qed.

(** X17: update() on a disabled H-bridge returns False without reading the
    encoder, changing the controller or commanding the drive motor; when the
    peel motor is in use (and its default run time is not negative) it is
    stopped, so that it is idle afterwards. *)
Theorem disabled_update_only_stops_peel (io : TickIO) (m : Machine) :
  _enabled (drives m) = false ->
  0 <= default_time_ms (peel_motor m) ->
  exists m',
    Servo.update io m = (m', Val false)
    /\ self m' = self m /\ encoder m' = encoder m
    /\ _enabled (drives m') = false
    /\ drive_log m' = drive_log m
    /\ (if peel_motor_enabled_by_servo (self m)
        then _current_state (peel_motor m') = STATE_STOPPED
        else peel_motor m' = peel_motor m).
Proof.
  intros Hen Ht. unfold drive_log.
  unfold Servo.update, Servo.enabled, HBridge.enabled, PeelMotor.is_idle.
  py_cbn.
  destruct (peel_motor_enabled_by_servo (self m)) eqn:Ep; py_cbn.
  - destruct (update_cases (peel_update_ms io) m)
      as (m1 & E1 & Hs1 & He1 & Hen1 & Hup).
    rewrite (bind_eq _ _ m m1 _ E1). py_cbn. rewrite Hen1, Hen. py_cbn.
    assert (H1 : drive_cmds (calls (drives m1)) = drive_cmds (calls (drives m))
                 /\ default_time_ms (peel_motor m1)
                    = default_time_ms (peel_motor m)).
    { destruct (negb _ && _ && _); [|subst m1; auto].
      destruct Hup as [Hp Hc]. rewrite Hp, Hc, drive_cmds_app.
      cbn. rewrite app_nil_r. auto. }
    destruct H1 as [Hl1 Hd1].
    destruct (peel_state_eqb (_current_state (peel_motor m1)) STATE_STOPPED)
      eqn:Ei; py_cbn.
    + exists m1. repeat split; try congruence.
      destruct (_current_state (peel_motor m1)); [reflexivity| |];
        discriminate.
    + destruct (peel_stop_run m1) as (m2 & E2 & Hp2 & Hc2 & Hs2 & He2 & Hen2);
        [rewrite Hd1; exact Ht|].
      rewrite (bind_eq _ _ m1 m2 _ E2). py_cbn.
      exists m2. repeat split; try congruence.
      * rewrite Hc2, drive_cmds_app. cbn. rewrite app_nil_r. exact Hl1.
      * rewrite Hp2. reflexivity.
  - rewrite Hen. py_cbn. exists m. repeat split; auto.
Qed.

Lemma disabled_update_only_stops_peel_witness :
  let m := fst (HBridge.disable
                  (fst (Servo.peel_run 1 0
                          (fst (HBridge.enable true
                                  (Servo.init hbridge0 (encoder_at 0)
                                     scenario_b_args)))))) in
  (_enabled (drives m) = false /\ 0 <= default_time_ms (peel_motor m))
  /\ exists m',
       Servo.update (tick_at 40 0) m = (m', Val false)
       /\ self m' = self m /\ encoder m' = encoder m
       /\ _enabled (drives m') = false
       /\ drive_log m' = drive_log m
       /\ (if peel_motor_enabled_by_servo (self m)
           then _current_state (peel_motor m') = STATE_STOPPED
           else peel_motor m' = peel_motor m).
Proof.
  intro m.
  assert (H1 : _enabled (drives m) = false) by reflexivity.
  assert (H2 : 0 <= default_time_ms (peel_motor m))
    by (vm_compute; discriminate).
  split; [exact (conj H1 H2)|].
  exact (disabled_update_only_stops_peel (tick_at 40 0) m H1 H2).
Defined.

(** stop(): drive_set(0), the peel motor told to stop when it is in use, and
    the flags of the idle state. *)
Lemma stop_run (m : Machine) :
  exists m',
    Servo.stop m = (m', Val tt)
    /\ _target_reached (self m') = true
    /\ _waiting_for_peel_idle_phase1 (self m') = false
    /\ _backlash_active (self m') = false
    /\ _setpoint (self m') = _setpoint (self m)
    /\ encoder m' = encoder m
    /\ _enabled (drives m') = _enabled (drives m)
    /\ drive_log m' = drive_log m ++ [0%Q].
Proof.
  unfold drive_log. unfold_servo.
  exec; eexists; (split; [reflexivity|]); norm; py_cbn; norm;
    rewrite ?app_nil_r; repeat split; reflexivity.
Qed.

(** X18: stop() raises nothing, commands drive_set(0) once and ends the
    move, from any state: is_target_reached is true afterwards, and every
    following update() returns False and commands nothing to the drive
    motor, whatever the encoder reads, until set_target() is called. *)
Theorem stop_ends_the_move (ios : list TickIO) (m : Machine) :
  exists m',
    Servo.stop m = (m', Val tt)
    /\ Servo.is_target_reached m' = (m', Val true)
    /\ drive_log m' = drive_log m ++ [0%Q]
    /\ Forall (eq (Val false)) (snd (ticks ios m'))
    /\ drive_log (fst (ticks ios m')) = drive_log m'
    /\ encoder (fst (ticks ios m')) = encoder m.
Proof.
  destruct (stop_run m) as (m' & E & Hr & Hw & Hb & Hsp & He & Hen & Hl).
  destruct (idle_ticks ios m' Hr Hw) as (T1 & T2 & T3 & T4 & T5).
  exists m'. unfold Servo.is_target_reached, gets. rewrite Hr, Hw.
  repeat split; try assumption. congruence.
Qed.

(** X19: set_target() at or above the current position plans a plain
    forward move: setpoint and original setpoint are the target, no
    backlash compensation, the stable counter and the integral are zeroed.
    Within the tolerance of the position the target counts as reached at
    once and drive_set(0) is the only drive command; otherwise the forward
    leg starts and no drive command is sent before the first update(). *)
Theorem set_target_forward_plan (t : Z) (io : SetTargetIO) (m : Machine) :
  let pos := _absolute_count
               (Encoder.updated (st_enc_ms io) (st_counter io) (encoder m)) in
  pos <= t ->
  exists m',
    Servo.set_target t io m = (m', Val tt)
    /\ _setpoint (self m') = t /\ _original_setpoint (self m') = t
    /\ _current_movement_is_forward (self m') = true
    /\ _backlash_active (self m') = false
    /\ _waiting_for_peel_idle_phase1 (self m') = false
    /\ _stable_count (self m') = 0 /\ _integral (self m') = 0%Q
    /\ _target_reached (self m') = (t - pos <=? tolerance (self m))
    /\ drive_log m'
       = drive_log m ++ (if t - pos <=? tolerance (self m) then [0%Q] else []).
Proof.
  intros pos Hle. subst pos. apply Z.ltb_ge in Hle.
  unfold drive_log. unfold_servo.
  exec; eexists; (split; [reflexivity|]); norm; py_cbn; norm;
    rewrite ?app_nil_r;
    repeat match goal with
           | |- context [?a <? ?b] =>
               let E := fresh "E" in
               destruct (a <? b) eqn:E; try (props; lia)
           end;
    repeat match goal with
           | |- context [?a <=? ?b] =>
               let E := fresh "E" in
               destruct (a <=? b) eqn:E; try (props; lia)
           end;
    repeat split; first [reflexivity | exfalso; props; lia].
Qed.

Lemma set_target_forward_plan_witness :
  let m := Servo.init hbridge0 (encoder_at 0) default_args in
  let io := set_target_at 10 4 in
  _absolute_count (Encoder.updated (st_enc_ms io) (st_counter io) (encoder m))
  <= 9
  /\ exists m',
       Servo.set_target 9 io m = (m', Val tt)
       /\ _target_reached (self m') = true
       /\ drive_log m' = drive_log m ++ [0%Q].
Proof.
  intros m io.
  assert (H : _absolute_count
                (Encoder.updated (st_enc_ms io) (st_counter io) (encoder m))
              <= 9) by (vm_compute; discriminate).
  split; [exact H|].
  destruct (set_target_forward_plan 9 io m H)
    as (m' & E & _ & _ & _ & _ & _ & _ & _ & Hr & Hl).
  exists m'. split; [exact E|]. split; [exact Hr|exact Hl].
Defined.

(** * Completing a forward move *)

(** A tick of the forward leg that reads a position within the tolerance
    and within the ramp distance of the setpoint. *)
Lemma in_tolerance_tick (io : TickIO) (m : Machine) :
  forward_leg m ->
  (0 <= max_output (self m))%Q ->
  Z.abs (_setpoint (self m) - position_read io m) <= tolerance (self m) ->
  Z.abs (_setpoint (self m) - position_read io m) <= ramp_ticks (self m) ->
  exists m',
    Servo.update io m
    = (m', Val (negb (stable_updates (self m)
                      <=? _stable_count (self m) + 1)))
    /\ _stable_count (self m') = _stable_count (self m) + 1
    /\ _target_reached (self m')
       = (stable_updates (self m) <=? _stable_count (self m) + 1)
    /\ _waiting_for_peel_idle_phase1 (self m') = false
    /\ _current_movement_is_forward (self m') = true
    /\ _enabled (drives m') = true
    /\ _setpoint (self m') = _setpoint (self m)
    /\ config_of (self m') = config_of (self m)
    /\ encoder m' = Encoder.updated (enc_ms io) (counter io) (encoder m)
    /\ exists l, drive_log m' = drive_log m ++ l
                 /\ Forall (fun v => v = 0%Q) l.
Proof.
  unfold forward_leg, position_read, drive_log, config_of.
  intros (Hen & Hr & Hw & Hf) Hmax Htol Hramp.
  apply Z.leb_le in Htol. apply Z.ltb_ge in Hramp.
  unfold_servo.
  exec; try (props; lia).
  all: rewrite ?clamp_zero in * by assumption.
  all: try match goal with
           | H : _ -> Exc _ = Val _ |- _ => discriminate (H range_zero)
           end.
  all: eexists; (split; [reflexivity|]); py_cbn; norm; py_cbn0; norm;
    repeat split; try reflexivity; try assumption;
    eexists; (split; [reflexivity|]);
    cbn [drive_cmds flat_map app]; repeat constructor.
Qed.

Lemma stable_ticks (ios : list TickIO) : forall m : Machine,
  forward_leg m ->
  (0 <= max_output (self m))%Q ->
  ios <> [] ->
  _stable_count (self m) + Z.of_nat (List.length ios)
  = stable_updates (self m) ->
  positions_within (_setpoint (self m)) (tolerance (self m))
    (ramp_ticks (self m)) ios (encoder m) ->
  snd (ticks ios m)
  = repeat (Val true) (List.length ios - 1) ++ [Val false]
  /\ _target_reached (self (fst (ticks ios m))) = true
  /\ exists l, drive_log (fst (ticks ios m)) = drive_log m ++ l
               /\ Forall (fun v => v = 0%Q) l.
Proof.
  induction ios as [|io rest IH]; intros m Hf Hmax Hne Hlen Hpos;
    [contradiction|].
  cbn [positions_within] in Hpos. destruct Hpos as (Htol & Hramp & Hrest).
  destruct (in_tolerance_tick io m Hf Hmax Htol Hramp)
    as (m1 & E & Hc & Hr & Hw & Hfw & Hen & Hsp & Hcfg & He & l & Hl & Hz).
  cbn [ticks]. rewrite E.
  assert (Hk : tolerance (self m1) = tolerance (self m)
               /\ ramp_ticks (self m1) = ramp_ticks (self m)
               /\ stable_updates (self m1) = stable_updates (self m)
               /\ max_output (self m1) = max_output (self m)).
  { unfold config_of in Hcfg. injection Hcfg as _ _ _ H1 _ _ H2 H3 H4.
    auto. }
  destruct Hk as (Ht1 & Hr1 & Hs1 & Hm1).
  destruct rest as [|io' rest'].
  - cbn [ticks fst snd List.length Nat.sub repeat app].
    cbn [List.length] in Hlen.
    assert (Hd : (stable_updates (self m) <=? _stable_count (self m) + 1)
                 = true) by (apply Z.leb_le; lia).
    rewrite Hd in *. cbn [negb]. repeat split; try assumption.
    exists l. auto.
  - assert (Hd : (stable_updates (self m) <=? _stable_count (self m) + 1)
                 = false).
    { apply Z.leb_gt. cbn [List.length] in Hlen. lia. }
    rewrite Hd in *. cbn [negb].
    assert (Hf1 : forward_leg m1) by (repeat split; assumption).
    specialize (IH m1 Hf1).
    rewrite Hm1, Hc, Hs1, Hsp, Ht1, Hr1, He in IH.
    destruct IH as (I1 & I2 & l2 & I3 & I4);
      [exact Hmax|discriminate| |exact Hrest|].
    { cbn [List.length] in *. lia. }
    destruct (ticks (io' :: rest') m1) as [m2 rs]. cbn [fst snd] in *.
    subst rs. repeat split.
    + cbn [List.length Nat.sub]. rewrite Nat.sub_0_r. reflexivity.
    + exact I2.
    + exists (l ++ l2). rewrite I3, Hl, app_assoc. split; [reflexivity|].
      apply Forall_app. auto.
Qed.

(** X20: stable_updates consecutive in-tolerance ticks complete a forward
    move: from the start of a forward leg (stable counter 0), when each of
    stable_updates ticks reads a position within the tolerance and within
    ramp_ticks of the setpoint, all ticks but the last return True, the last
    returns False with the target reached, and every drive command sent
    meanwhile is 0. *)
Theorem stable_ticks_complete_the_move (ios : list TickIO) (m : Machine) :
  forward_leg m ->
  (0 <= max_output (self m))%Q ->
  _stable_count (self m) = 0 ->
  ios <> [] ->
  Z.of_nat (List.length ios) = stable_updates (self m) ->
  positions_within (_setpoint (self m)) (tolerance (self m))
    (ramp_ticks (self m)) ios (encoder m) ->
  snd (ticks ios m)
  = repeat (Val true) (List.length ios - 1) ++ [Val false]
  /\ _target_reached (self (fst (ticks ios m))) = true
  /\ exists l, drive_log (fst (ticks ios m)) = drive_log m ++ l
               /\ Forall (fun v => v = 0%Q) l.
Proof.
  intros Hf Hmax Hc Hne Hlen Hpos.
  apply stable_ticks; try assumption. rewrite Hc. exact Hlen.
Qed.

Lemma stable_ticks_complete_the_move_witness :
  let m := forward_move default_args in
  let ios := [tick_at 30 95; tick_at 50 98; tick_at 70 101] in
  (forward_leg m /\ (0 <= max_output (self m))%Q
   /\ _stable_count (self m) = 0 /\ ios <> []
   /\ Z.of_nat (List.length ios) = stable_updates (self m)
   /\ positions_within (_setpoint (self m)) (tolerance (self m))
        (ramp_ticks (self m)) ios (encoder m))
  /\ snd (ticks ios m) = [Val true; Val true; Val false]
  /\ _target_reached (self (fst (ticks ios m))) = true.
Proof.
  intros m ios.
  assert (H1 : forward_leg m) by (repeat split).
  assert (H2 : (0 <= max_output (self m))%Q) by (vm_compute; discriminate).
  assert (H3 : _stable_count (self m) = 0) by reflexivity.
  assert (H4 : ios <> []) by discriminate.
  assert (H5 : Z.of_nat (List.length ios) = stable_updates (self m))
    by reflexivity.
  assert (H6 : positions_within (_setpoint (self m)) (tolerance (self m))
                 (ramp_ticks (self m)) ios (encoder m))
    by (vm_compute; repeat split; discriminate).
  split; [exact (conj H1 (conj H2 (conj H3 (conj H4 (conj H5 H6)))))|].
  destruct (stable_ticks_complete_the_move ios m H1 H2 H3 H4 H5 H6)
    as (R1 & R2 & _).
  split; [exact R1|exact R2].
Defined.

(** * The speed profiles *)

Lemma pymin_mono_l (a b c : Q) : (a <= b)%Q -> (pymin a c <= pymin b c)%Q.
Proof. intro H. minmax; lra. Qed.

Lemma pymin_mono_r (a b c : Q) : (a <= b)%Q -> (pymin c a <= pymin c b)%Q.
Proof. intro H. minmax; lra. Qed.

Lemma pymax_mono_r (a b c : Q) : (a <= b)%Q -> (pymax c a <= pymax c b)%Q.
Proof. intro H. minmax; lra. Qed.

Lemma Qdiv_mono (x y z : Q) : (0 < z)%Q -> (x <= y)%Q -> (x / z <= y / z)%Q.
Proof.
  intros Hz Hxy. unfold Qdiv. apply Qmult_le_compat_r; [exact Hxy|].
  apply Qinv_le_0_compat. lra.
Qed.

(** progress = max(0.0, min(1.0, x / total)) grows with x. *)
Lemma progress_mono (x y total : Z) :
  0 < total -> x <= y ->
  (pymax 0 (pymin 1 (inject_Z x / inject_Z total))
   <= pymax 0 (pymin 1 (inject_Z y / inject_Z total)))%Q.
Proof.
  intros Ht Hxy. apply pymax_mono_r, pymin_mono_r, Qdiv_mono.
  - change 0%Q with (inject_Z 0). rewrite <- Zlt_Qlt. exact Ht.
  - rewrite <- Zle_Qle. exact Hxy.
Qed.




(** X22: the reverse leg (Phase 1) never speeds up as the overshoot point
    comes closer: reverse_output, a negative speed, is antitone in the
    distance to the setpoint, for every configuration. *)
Theorem reverse_leg_slows_down (s : ServoT) (d1 d2 : Z) :
  d1 <= d2 ->
  (Servo.reverse_output s d2 <= Servo.reverse_output s d1)%Q.
Proof.
  intro Hd. unfold Servo.reverse_output. cbv zeta.
  destruct (0 <? _initial_error_at_move_start s) eqn:Et.
  - apply Z.ltb_lt in Et.
    pose proof (progress_mono d1 d2 _ Et Hd) as Hp.
    pose proof (progress_unit (inject_Z d1 / inject_Z
                                 (_initial_error_at_move_start s))) as [H1 _].
    set (p1 := pymax 0 (pymin 1 (inject_Z d1 / _))) in *.
    set (p2 := pymax 0 (pymin 1 (inject_Z d2 / _))) in *.
    clearbody p1 p2.
    apply pymax_mono_r.
    destruct (Qlt_le_dec (max_output s * (6 # 10)) (min_output s)) as [Hlt|Hge].
    + assert (E1 : forall p, (0 <= p)%Q ->
                (pymin (- (min_output s
                           + (max_output s * (6 # 10) - min_output s) * p))
                   (- min_output s) == - min_output s)%Q).
      { intros p Hp0. minmax; nra. }
      rewrite (E1 p1), (E1 p2) by lra. apply Qle_refl.
    + apply pymin_mono_l. nra.
  - apply Qle_refl.
Qed.

Lemma reverse_leg_slows_down_witness :
  let s := self (forward_move default_args) in
  40 <= 90
  /\ (Servo.reverse_output s 90 <= Servo.reverse_output s 40)%Q.
Proof.
  intro s.
  assert (H : 40 <= 90) by discriminate.
  split; [exact H|].
  exact (reverse_leg_slows_down s 40 90 H).
Defined.

(** * The peel motor during a move *)

(** X23: with the peel motor in use and a positive peel run time,
    set_target() to another position than the current one starts the peel
    motor in the direction of the move: forward for a target above the
    position, in reverse for a target below it (where the peel motor has to
    be idle, otherwise the controller waits for it). *)
Theorem set_target_runs_peel_with_the_move (t : Z) (io : SetTargetIO)
    (m : Machine) :
  let pos := _absolute_count
               (Encoder.updated (st_enc_ms io) (st_counter io) (encoder m)) in
  peel_motor_enabled_by_servo (self m) = true ->
  0 < default_peel_run_time_ms (self m) ->
  t <> pos ->
  (t < pos -> _current_state (peel_motor m) = STATE_STOPPED) ->
  exists m',
    Servo.set_target t io m = (m', Val tt)
    /\ PeelMotor.get_state m' = (m', Val (if pos <? t then 1 else -1)).
Proof.
  intros pos Hpeel Htime Hne Hidle. subst pos.
  apply Z.eqb_neq in Hne.
  unfold PeelMotor.get_state, gets. unfold_servo.
  exec;
    repeat match goal with
           | S : forall ds, PeelMotor.state_map ?d = Some ds -> _ |- _ =>
               let H := fresh "Hst" in
               pose proof (S _ eq_refl ltac:(discriminate)
                             ltac:(py_cbn0; assumption)) as H;
               clear S
           end;
    try (exfalso; props;
         match goal with
         | H : peel_state_eqb _ _ = false |- _ =>
             rewrite Hidle in H by lia; discriminate H
         end);
    try (exfalso; props; lia);
    eexists; (split; [reflexivity|]); norm; py_cbn; norm;
    repeat match goal with
           | |- context [?a <? ?b] =>
               let E := fresh "E" in
               destruct (a <? b) eqn:E; try (exfalso; props; lia)
           end;
    reflexivity.
Qed.

Lemma set_target_runs_peel_with_the_move_witness :
  let m := Servo.init hbridge0 (encoder_at 300) scenario_b_args in
  let io := set_target_at 10 300 in
  (peel_motor_enabled_by_servo (self m) = true
   /\ 0 < default_peel_run_time_ms (self m)
   /\ -100 <> _absolute_count
                (Encoder.updated (st_enc_ms io) (st_counter io) (encoder m))
   /\ (-100 < _absolute_count
                (Encoder.updated (st_enc_ms io) (st_counter io) (encoder m))
       -> _current_state (peel_motor m) = STATE_STOPPED))
  /\ exists m',
       Servo.set_target (-100) io m = (m', Val tt)
       /\ PeelMotor.get_state m' = (m', Val (-1)).
Proof.
  intros m io.
  assert (H1 : peel_motor_enabled_by_servo (self m) = true) by reflexivity.
  assert (H2 : 0 < default_peel_run_time_ms (self m)) by reflexivity.
  assert (H3 : -100 <> _absolute_count
                         (Encoder.updated (st_enc_ms io) (st_counter io)
                            (encoder m))) by (vm_compute; discriminate).
  assert (H4 : -100 < _absolute_count
                        (Encoder.updated (st_enc_ms io) (st_counter io)
                           (encoder m))
               -> _current_state (peel_motor m) = STATE_STOPPED)
    by (intros _; reflexivity).
  split; [exact (conj H1 (conj H2 (conj H3 H4)))|].
  exact (set_target_runs_peel_with_the_move (-100) io m H1 H2 H3 H4).
Defined.

(** X24: disable() on an enabled H-bridge parks the drive motor before it
    switches the bridge off: it raises nothing, both drive channels end at
    100 percent (brake) or both at 0 (coast) according to auto_brake, the
    bridge is disabled and the move is over (is_target_reached is true). *)
Theorem disable_parks_the_drive (m : Machine) :
  _enabled (drives m) = true ->
  exists m',
    Servo.disable m = (m', Val tt)
    /\ _enabled (drives m') = false
    /\ drive1_pwm (drives m') = (if auto_brake (drives m) then 100 else 0)
    /\ drive2_pwm (drives m') = drive1_pwm (drives m')
    /\ Servo.is_target_reached m' = (m', Val true).
Proof.
  intro Hen.
  assert (Hd : exists m1,
             HBridge.drive_set 0 m = (m1, Val tt)
             /\ self m1 = self m
             /\ drive1_pwm (drives m1)
                = (if auto_brake (drives m) then 100 else 0)
             /\ drive2_pwm (drives m1) = drive1_pwm (drives m1)).
  { destruct m as [h e p s].
    destruct h as [en br dmin pmin inv pin p1 p2 d1 d2 cl].
    py_cbn0. subst en.
    unfold HBridge.drive_set, HBridge.log_call, HBridge.enabled. py_cbn.
    change (Qleb (-100) 0 && Qleb 0 100) with true.
    change (Qeq_bool 0 0) with true. py_cbn.
    eexists; split; [reflexivity|]. py_cbn. repeat split. }
  destruct Hd as (m1 & E1 & Hs1 & Hd1 & Hd2).
  unfold Servo.disable, Servo.enable, Servo.is_target_reached.
  rewrite (bind_eq _ _ m m1 _ E1). py_cbn. rewrite Hs1.
  destruct (peel_motor_enabled_by_servo (self m)); py_cbn.
  - destruct (peel_stop_spec m1) as (m2 & E2 & F).
    rewrite (bind_eq _ _ m1 m2 _ E2). py_cbn.
    unfold HBridge.enable, HBridge.log_call. py_cbn.
    eexists; split; [reflexivity|]. py_cbn.
    rewrite (pf_drive1 _ _ F), (pf_drive2 _ _ F), (pf_self _ _ F), Hs1.
    py_cbn. auto.
  - unfold HBridge.enable, HBridge.log_call. py_cbn.
    eexists; split; [reflexivity|]. py_cbn. rewrite Hs1. py_cbn. auto.
Qed.

Lemma disable_parks_the_drive_witness :
  let m := fst (Servo.update (tick_at 30 0) (forward_move default_args)) in
  _enabled (drives m) = true
  /\ exists m',
       Servo.disable m = (m', Val tt)
       /\ _enabled (drives m') = false
       /\ drive1_pwm (drives m') = (if auto_brake (drives m) then 100 else 0)
       /\ drive2_pwm (drives m') = drive1_pwm (drives m')
       /\ Servo.is_target_reached m' = (m', Val true).
Proof.
  intro m.
  assert (H : _enabled (drives m) = true) by reflexivity.
  split; [exact H|].
  exact (disable_parks_the_drive m H).
Defined.
